(** * urlroulette: the sharded counter and the random draw of src/index.ts

    A shallow embedding of the Cloudflare Worker in [src/index.ts].

    - The KV namespace is a finite map from key strings to value strings;
      strings are sequences of UTF-8 bytes.
    - JavaScript numbers that occur here are integers (counters, shard
      indices, millisecond timestamps, list indices) or [NaN] (what
      [parseInt] answers on a string without digits); they are modelled by
      [number], exact integers next to [NaN].  This agrees with IEEE doubles
      as long as magnitudes stay within 2^53.
    - [Math.random()] is an input: a rational of the unit interval taken from
      a supply of draws, and its product with the bound is taken exactly,
      where the code rounds it to a double before the floor.  What is
      stated about a draw is either the flow it enters or its range, which
      the rounding keeps.  [new Date().getTime()] is an input as well.
    - [list] returns the matching keys in the byte order of the platform,
      at most 1000 of them.
    - [put] is modelled where the platform carries it out (keys of at most
      512 bytes).  Statements that depend on the arithmetic of large
      numbers or on every write being carried out say so in their
      hypotheses ([small], [key_fits], [storable]).
    - A thrown JavaScript exception is an explicit outcome of a handler.
    - The [URL] constructor of the platform is not part of the worker's
      source; the handlers take its verdict as a parameter. *)

From Stdlib Require Import ZArith QArith Qround Lia Ascii String.
From stdpp Require Import gmap strings list fin_maps sorting.

Local Open Scope string_scope.
Local Open Scope Z_scope.

(** ** Strings *)

Module Str.

(** [s.startsWith(p)] *)
Definition startsWith (s p : string) : bool := String.prefix p s.

(** [s.endsWith(p)]: the last [p.length] characters of [s] are [p]. *)
Definition endsWith (s p : string) : bool :=
  let n := String.length s in
  let m := String.length p in
  if (m <=? n)%nat then String.eqb (String.substring (n - m) m s) p else false.

(** [s] without its first [n] characters. *)
Fixpoint drop (n : nat) (s : string) : string :=
  match n, s with
  | S k, String _ r => drop k r
  | _, _ => s
  end.

Definition hex_digit (d : N) : ascii :=
  if (d <? 10)%N then ascii_of_N (48 + d) else ascii_of_N (55 + d).

(** Characters that [encodeURIComponent] leaves alone: letters, digits and
    [- _ . ! ~ * ' ( )]. *)
Definition unreserved (c : ascii) : bool :=
  let n := N_of_ascii c in
  ((48 <=? n) && (n <=? 57) || (65 <=? n) && (n <=? 90) || (97 <=? n) && (n <=? 122)
   || (n =? 45) || (n =? 95) || (n =? 46) || (n =? 33) || (n =? 126) || (n =? 42)
   || (n =? 39) || (n =? 40) || (n =? 41))%N.

(** [encodeURIComponent(s)] on the UTF-8 bytes of [s]: every other byte
    becomes [%XX]. *)
Fixpoint encodeURIComponent (s : string) : string :=
  match s with
  | EmptyString => EmptyString
  | String c r =>
      if unreserved c then String c (encodeURIComponent r)
      else
        let n := N_of_ascii c in
        String "%"%char (String (hex_digit (n / 16)) (String (hex_digit (n mod 16))
          (encodeURIComponent r)))
  end.

(** Whether the character [c] occurs in [s]. *)
Fixpoint contains (c : ascii) (s : string) : bool :=
  match s with
  | EmptyString => false
  | String a r => Ascii.eqb a c || contains c r
  end.

(** The byte order of keys. *)
Definition le (a b : string) : Prop := String.leb a b = true.

#[global] Instance le_dec a b : Decision (le a b) :=
  decide (String.leb a b = true).

End Str.

Import Str.

(** ** JavaScript numbers *)

Module Num.

Inductive number : Set :=
| NaN : number
| Int : Z -> number.

Definition add (a b : number) : number :=
  match a, b with
  | Int x, Int y => Int (x + y)
  | _, _ => NaN
  end.

Definition mul (a b : number) : number :=
  match a, b with
  | Int x, Int y => Int (x * y)
  | _, _ => NaN
  end.

(** [a === b] on numbers: [NaN] is different from everything. *)
Definition strict_eq (a b : number) : bool :=
  match a, b with
  | Int x, Int y => x =? y
  | _, _ => false
  end.

(** [Math.floor(a / d)] for an integer [a] and a positive integer
    constant [d]. *)
Definition floor_div (a : number) (d : Z) : number :=
  match a with
  | Int x => Int (x / d)
  | NaN => NaN
  end.

(** Decimal digits of a natural number, most significant first, put in
    front of [acc].  The fuel is the binary size, which bounds the number
    of decimal digits. *)
Definition digit_char (d : N) : ascii := ascii_of_N (48 + d).

Fixpoint digits_aux (fuel : nat) (n : N) (acc : string) : string :=
  let acc' := String (digit_char (n mod 10)) acc in
  match fuel with
  | O => acc'
  | S f => if (n <? 10)%N then acc' else digits_aux f (n / 10) acc'
  end.

Definition digits (n : N) : string := digits_aux (N.size_nat n) n EmptyString.

(** A non-empty string of decimal digits. *)
Inductive decimal : string -> Prop :=
| decimal_last d : (d < 10)%N -> decimal (String (digit_char d) EmptyString)
| decimal_more d s : (d < 10)%N -> decimal s -> decimal (String (digit_char d) s).

(** [`${n}`]: Number::toString in radix 10. *)
Definition toString (a : number) : string :=
  match a with
  | NaN => "NaN"
  | Int (Zneg p) => String "-"%char (digits (Npos p))
  | Int z => digits (Z.to_N z)
  end.

(** *** parseInt *)

(** White space and line terminators in front of the numeral.  Strings
    are sequences of UTF-8 bytes, so a white space character takes one,
    two or three of them.  One byte: TAB, LF, VT, FF, CR and the space. *)
Definition is_white (c : ascii) : bool :=
  let n := N_of_ascii c in
  ((9 <=? n) && (n <=? 13) || (n =? 32))%N.

(** Two bytes: U+00A0. *)
Definition is_white2 (c1 c2 : ascii) : bool :=
  ((N_of_ascii c1 =? 194) && (N_of_ascii c2 =? 160))%N.

(** Three bytes: U+1680, U+2000 to U+200A, U+2028, U+2029, U+202F, U+205F,
    U+3000 and U+FEFF. *)
Definition is_white3 (c1 c2 c3 : ascii) : bool :=
  let n1 := N_of_ascii c1 in
  let n2 := N_of_ascii c2 in
  let n3 := N_of_ascii c3 in
  ((n1 =? 225) && (n2 =? 154) && (n3 =? 128)
   || (n1 =? 226) && (n2 =? 128)
      && ((128 <=? n3) && (n3 <=? 138) || (n3 =? 168) || (n3 =? 169) || (n3 =? 175))
   || (n1 =? 226) && (n2 =? 129) && (n3 =? 159)
   || (n1 =? 227) && (n2 =? 128) && (n3 =? 128)
   || (n1 =? 239) && (n2 =? 187) && (n3 =? 191))%N.

Fixpoint skip_white (s : string) : string :=
  match s with
  | String c1 r1 =>
      if is_white c1 then skip_white r1
      else match r1 with
           | String c2 r2 =>
               if is_white2 c1 c2 then skip_white r2
               else match r2 with
                    | String c3 r3 => if is_white3 c1 c2 c3 then skip_white r3 else s
                    | EmptyString => s
                    end
           | EmptyString => s
           end
  | EmptyString => s
  end.

(** The value of [c] as a digit in radix [radix], if it is one. *)
Definition digit_value (radix : N) (c : ascii) : option N :=
  let n := N_of_ascii c in
  let v :=
    if ((48 <=? n) && (n <=? 57))%N then Some (n - 48)%N
    else if ((97 <=? n) && (n <=? 122))%N then Some (n - 87)%N
    else if ((65 <=? n) && (n <=? 90))%N then Some (n - 55)%N
    else None in
  match v with
  | Some d => if (d <? radix)%N then Some d else None
  | None => None
  end.

(** Reads the longest run of digits in front of [s]; [acc] is the value
    read so far. *)
Fixpoint scan_digits (radix : N) (s : string) (acc : N) : N :=
  match s with
  | String c r =>
      match digit_value radix c with
      | Some d => scan_digits radix r (acc * radix + d)
      | None => acc
      end
  | EmptyString => acc
  end.

Definition starts_with_digit (radix : N) (s : string) : bool :=
  match s with
  | String c _ => match digit_value radix c with Some _ => true | None => false end
  | EmptyString => false
  end.

(** [parseInt(s)] with no radix argument: leading white space is dropped,
    a sign is read, a [0x] or [0X] prefix selects radix 16, and the longest
    run of digits is the result; no digit at all gives [NaN]. *)
Definition parseInt (s : string) : number :=
  let s1 := skip_white s in
  let neg := startsWith s1 "-" in
  let s2 := if startsWith s1 "-" || startsWith s1 "+" then drop 1 s1 else s1 in
  let hex := startsWith s2 "0x" || startsWith s2 "0X" in
  let radix := if hex then 16%N else 10%N in
  let s3 := if hex then drop 2 s2 else s2 in
  if starts_with_digit radix s3 then
    let v := Z.of_N (scan_digits radix s3 0) in
    Int (if neg then - v else v)
  else NaN.

End Num.

Import Num.

(** ** The KV namespace *)

Module KV.

Abbreviation namespace := (gmap string string).

Definition get (key : string) (kv : namespace) : option string := kv !! key.

Definition put (key value : string) (kv : namespace) : namespace := <[key := value]> kv.

(** Every stored key that starts with [prefix], in byte order. *)
Definition matching (prefix : string) (kv : namespace) : list string :=
  merge_sort Str.le (filter (fun k => startsWith k prefix = true) (elements (dom kv))).

(** The platform hands out at most this many keys per [list] call. *)
Definition list_limit : nat := 1000.

(** [list({ prefix })]: the first [list_limit] matching keys. *)
Definition list (prefix : string) (kv : namespace) : list string :=
  take list_limit (matching prefix kv).

End KV.

(** ** The world a request runs in *)

(** What a handler can see and change: the namespace, the clock reading
    [new Date().getTime()] answers, the results [Math.random()] will give
    and how many of them have been used. *)
Record World : Type := mkWorld {
  kv : gmap string string;
  now : Z;
  random : nat -> Q;
  drawn : nat
}.

Definition set_kv (f : gmap string string -> gmap string string) (w : World) : World :=
  mkWorld (f (kv w)) (now w) (random w) (drawn w).

Inductive JsError : Set :=
| TypeError : JsError.

(** How the evaluation of a piece of JavaScript ends. *)
Inductive Completion (A : Type) : Type :=
| Normal : A -> Completion A
| Throw : JsError -> Completion A.

Arguments Normal {A} _.
Arguments Throw {A} _.

Definition Js (A : Type) : Type := World -> Completion A * World.

Definition ret {A} (a : A) : Js A := fun w => (Normal a, w).

Definition bind {A B} (m : Js A) (k : A -> Js B) : Js B :=
  fun w =>
    match m w with
    | (Normal a, w') => k a w'
    | (Throw e, w') => (Throw e, w')
    end.

Definition throw {A} (e : JsError) : Js A := fun w => (Throw e, w).

Notation "'let*' x ':=' m 'in' k" := (bind m (fun x => k))
  (at level 10, x name, m at level 100, k at level 200).
Notation "m ';;' k" := (bind m (fun _ => k))
  (at level 100, k at level 200, right associativity).

Definition KV_get (key : string) : Js (option string) :=
  fun w => (Normal (KV.get key (kv w)), w).

Definition KV_put (key value : string) : Js unit :=
  fun w => (Normal tt, set_kv (KV.put key value) w).

Definition KV_list (prefix : string) : Js (list string) :=
  fun w => (Normal (KV.list prefix (kv w)), w).

Definition Date_getTime : Js number :=
  fun w => (Normal (Int (now w)), w).

Definition Math_random : Js Q :=
  fun w => (Normal (random w (drawn w)), mkWorld (kv w) (now w) (random w) (S (drawn w))).

(** [Math.floor(r * max)] *)
Definition floor_mul (r : Q) (max : number) : number :=
  match max with
  | Int m => Int (Qfloor (r * inject_Z m))
  | NaN => NaN
  end.

(** [keys[i].name]: reading [name] off [undefined] is a [TypeError]. *)
Definition name_at (keys : list string) (i : number) : Js string :=
  match i with
  | Int z =>
      if z <? 0 then throw TypeError
      else match keys !! Z.to_nat z with
           | Some k => ret k
           | None => throw TypeError
           end
  | NaN => throw TypeError
  end.

(** [v || "0"]: [null] and the empty string are falsy. *)
Definition or_zero (v : option string) : string :=
  match v with
  | Some EmptyString | None => "0"
  | Some s => s
  end.

(** ** Requests and responses *)

Record Env : Type := mkEnv {
  SECRET : option string;
  ALLOWED_ORIGIN : string
}.

Record Request : Type := mkRequest {
  method : string;
  url : string;
  authorization : option string;   (* [headers.get("Authorization")] *)
  text : string                    (* the body *)
}.

Record Response : Type := mkResponse {
  status_code : Z;
  body : option string;
  headers : list (string * string)
}.

(** [new Response(null, { status })] *)
Definition status (code : Z) : Response := mkResponse code None [].

(** [env.SECRET && request.headers.get("Authorization") !== `Secret ${env.SECRET}`] *)
Definition unauthorized (env : Env) (request : Request) : bool :=
  match SECRET env with
  | None | Some EmptyString => false
  | Some secret =>
      match authorization request with
      | Some h => negb (String.eqb h ("Secret " ++ secret))
      | None => true
      end
  end.

Definition quote : string := String "034"%char EmptyString.
Definition newline : string := String "010"%char EmptyString.

(** A number inside [JSON.stringify]: [NaN] is written [null]. *)
Definition json_number (a : number) : string :=
  match a with
  | NaN => "null"
  | Int _ => toString a
  end.

(** [JSON.stringify({ urlCount, urlPrefix }, undefined, 4)] *)
Definition stringify_counter (urlCount urlPrefix : number) : string :=
  "{" ++ newline
  ++ "    " ++ quote ++ "urlCount" ++ quote ++ ": " ++ json_number urlCount ++ "," ++ newline
  ++ "    " ++ quote ++ "urlPrefix" ++ quote ++ ": " ++ json_number urlPrefix ++ newline
  ++ "}".

(** ** The handlers *)

Definition getUrlCount : Js number :=
  let* v := KV_get "urlCount" in ret (parseInt (or_zero v)).

Definition getUrlPrefix : Js number :=
  let* v := KV_get "urlPrefix" in ret (parseInt (or_zero v)).

Definition getUrlCountAndPrefix : Js (number * number) :=
  let* urlCount := getUrlCount in
  let* urlPrefix := getUrlPrefix in
  ret (urlCount, urlPrefix).

(** draws a number between 0 and max, exclusive *)
Definition rand (max : number) : Js number :=
  let* r := Math_random in ret (floor_mul r max).

(** [`url.${urlPrefix}.${time}`]: the key of a URL entry. *)
Definition url_key (urlPrefix time : number) : string :=
  "url." ++ toString urlPrefix ++ "." ++ toString time.

(** [`urlKey.${encodeURIComponent(url)}`]: the key of the reverse entry. *)
Definition reverse_key (url : string) : string :=
  "urlKey." ++ encodeURIComponent url.

(** [`url.${targetUrlPrefix}`]: the prefix handed to [list]. *)
Definition list_prefix (targetUrlPrefix : number) : string :=
  "url." ++ toString targetUrlPrefix.

Section Worker.

(** Whether [new URL(url)] returns; it throws otherwise. *)
Variable URL_parses : string -> bool.

Definition handleCreate (env : Env) (request : Request) : Js Response :=
  if unauthorized env request then ret (status 401)
  else
    let* counter := getUrlCountAndPrefix in
    let '(urlCount, urlPrefix) := counter in
    let url := text request in
    if negb (startsWith url "http://") && negb (startsWith url "https://")
    then ret (status 400)
    else if negb (URL_parses url) then ret (status 400)
    else
      let* t := Date_getTime in
      let urlKey := url_key urlPrefix t in
      KV_put urlKey url ;;
      KV_put (reverse_key url) urlKey ;;
      let urlCount := add urlCount (Int 1) in
      (if strict_eq urlCount (Int 1000)
       then KV_put "urlPrefix" (toString (add urlPrefix (Int 1))) ;;
            KV_put "urlCount" "0"
       else KV_put "urlCount" (toString urlCount)) ;;
      ret (status 201).

Definition handleStats (env : Env) (request : Request) : Js Response :=
  if unauthorized env request then ret (status 401)
  else
    let* counter := getUrlCountAndPrefix in
    let '(urlCount, urlPrefix) := counter in
    ret (mkResponse 200 (Some (stringify_counter urlCount urlPrefix)) []).

Definition estimatedTotalUrlCount (urlCount urlPrefix : number) : number :=
  add (mul urlPrefix (Int 1000)) urlCount.

Definition targetUrlPrefix (estimatedTargetUrl : number) : number :=
  floor_div estimatedTargetUrl 1000.

Definition handleGet (env : Env) (request : Request) : Js Response :=
  if endsWith (url request) "/stats" then handleStats env request
  else
    let* counter := getUrlCountAndPrefix in
    let '(urlCount, urlPrefix) := counter in
    let* estimatedTargetUrl := rand (estimatedTotalUrlCount urlCount urlPrefix) in
    let* results := KV_list (list_prefix (targetUrlPrefix estimatedTargetUrl)) in
    let* i := rand (Int (Z.of_nat (length results))) in
    let* name := name_at results i in
    let* value := KV_get name in
    ret (mkResponse 200 value [("Access-Control-Allow-Origin", ALLOWED_ORIGIN env)]).

Definition fetch (request : Request) (env : Env) : Js Response :=
  if String.eqb (method request) "POST" then handleCreate env request
  else if String.eqb (method request) "GET" then handleGet env request
  else ret (status 405).

End Worker.

(** ** Sequences of submissions *)

(** One POST handled at clock reading [at_time]. *)
Record Submission : Type := mkSubmission {
  at_time : Z;
  request : Request
}.

Section Runs.

Variable URL_parses : string -> bool.
Variable env : Env.

(** The namespace after [handleCreate] has served [x] on namespace [s]. *)
Definition submit (s : gmap string string) (x : Submission) : gmap string string :=
  kv (snd (handleCreate URL_parses env (request x) (mkWorld s (at_time x) (fun _ => 0%Q) 0))).

(** The namespace after the submissions [l], served one after the other
    on an empty namespace. *)
Definition run (l : list Submission) : gmap string string := foldl submit ∅ l.

End Runs.

(** The key under which [handleCreate] files the body of [x] when it
    serves [x] on namespace [s]. *)
Definition entry_key (s : gmap string string) (x : Submission) : string :=
  url_key (parseInt (or_zero (s !! "urlPrefix"))) (Int (at_time x)).

(** The counter as [getUrlCountAndPrefix] reads it off a namespace. *)
Definition load (s : gmap string string) : Completion (number * number) :=
  fst (getUrlCountAndPrefix (mkWorld s 0 (fun _ => 0%Q) 0)).

(** The stored counter is a pair of integers, the count below 1000. *)
Definition counter_ok (s : gmap string string) : Prop :=
  exists c p, load s = Normal (Int c, Int p) /\ 0 <= c < 1000 /\ 0 <= p.

(** Every stored key is a counter key, a reverse key, or the key of an
    entry filed at one of the clock readings [times]. *)
Definition keys_from (times : list Z) (s : gmap string string) : Prop :=
  forall k, is_Some (s !! k) ->
    k = "urlCount" \/ k = "urlPrefix" \/ (exists u, k = reverse_key u)
    \/ exists p t, k = url_key (Int p) (Int t) /\ t ∈ times.

(** How many targets [0 <= t < total] the shard selection sends to
    shard [shard]. *)
Definition targets_of_shard (total shard : Z) : nat :=
  length (filter (fun t => strict_eq (targetUrlPrefix (Int t)) (Int shard) = true) (seqZ 0 total)).

(** ** The outcome of a submission, for the statements below *)

(** Whether [handleCreate] gets past the secret and the two checks of
    the body. *)
Definition accepted (URL_parses : string -> bool) (env : Env) (request : Request) : bool :=
  negb (unauthorized env request)
  && (startsWith (text request) "http://" || startsWith (text request) "https://")
  && URL_parses (text request).

(** The three or four writes of an accepted submission, in the order of
    the source, on a namespace whose counter reads [urlCount], [urlPrefix]. *)
Definition writes (urlCount urlPrefix : number) (time : Z) (url : string)
    (s : gmap string string) : gmap string string :=
  let s1 := KV.put (url_key urlPrefix (Int time)) url s in
  let s2 := KV.put (reverse_key url) (url_key urlPrefix (Int time)) s1 in
  if strict_eq (add urlCount (Int 1)) (Int 1000)
  then KV.put "urlCount" "0" (KV.put "urlPrefix" (toString (add urlPrefix (Int 1))) s2)
  else KV.put "urlCount" (toString (add urlCount (Int 1))) s2.

(** ** Notions for the further properties *)

(** The submissions of [l] that [handleCreate] accepts, in order. *)
Definition accepted_of (URL_parses : string -> bool) (env : Env) (l : list Submission)
    : list Submission :=
  filter (fun x => accepted URL_parses env (request x) = true) l.

(** The stored keys under [url.<q>.], the dot after the shard index
    included. *)
Definition shard_entries (q : Z) (s : gmap string string) : list string :=
  filter (fun k => startsWith k (list_prefix (Int q) ++ ".") = true) (elements (dom s)).

(** Every shard below the current one holds an entry, and so does the
    current one as soon as its count is positive. *)
Definition shards_filled (s : gmap string string) : Prop :=
  forall c p, load s = Normal (Int c, Int p) ->
    (forall q, 0 <= q < p -> exists t, is_Some (s !! url_key (Int q) (Int t)))
    /\ (0 < c -> exists t, is_Some (s !! url_key (Int p) (Int t))).

(** Every value stored under a key that starts with [url.] is the body of
    an accepted submission of [l]. *)
Definition bodies_from (URL_parses : string -> bool) (env : Env) (l : list Submission)
    (s : gmap string string) : Prop :=
  forall k v, s !! k = Some v -> startsWith k "url." = true ->
    exists x, x ∈ l /\ accepted URL_parses env (request x) = true /\ text (request x) = v.

(** Every reverse entry points at an entry that holds its URL and was
    filed at one of the clock readings [times]. *)
Definition reverse_index_ok (times : list Z) (s : gmap string string) : Prop :=
  forall u k, s !! reverse_key u = Some k ->
    s !! k = Some u /\ exists p t, k = url_key (Int p) (Int t) /\ t ∈ times.

(** Every stored entry of shard [q] was filed by the [j]-th accepted
    submission of [l] for some [j] with [j / 1000 = q]. *)
Definition entries_indexed (URL_parses : string -> bool) (env : Env) (l : list Submission)
    (s : gmap string string) : Prop :=
  forall q t, is_Some (s !! url_key (Int q) (Int t)) ->
    exists j : nat, (at_time <$> accepted_of URL_parses env l) !! j = Some t
                    /\ Z.of_nat j / 1000 = q.

(** What the sampling branch of [handleGet] answers with the key [name]. *)
Definition sampled (env : Env) (value : option string) : Response :=
  mkResponse 200 value [("Access-Control-Allow-Origin", ALLOWED_ORIGIN env)].

(** ** Where the embedding is the code *)

(** The integers a double holds exactly, with room for one more increment:
    on them [add], [mul], [toString] and [parseInt] are what the code
    computes. *)
Definition small (z : Z) : Prop := Z.abs z < 2 ^ 53.

(** The platform refuses a [put] on a key of more than 512 bytes; [KV_put]
    stands for a [put] that is carried out. *)
Definition key_fits (key : string) : bool := (String.length key <=? 512)%nat.

(** Every submission of [l] that passes the checks of [handleCreate] has a
    reverse key the platform accepts, so that none of its writes is
    refused. *)
Definition storable (URL_parses : string -> bool) (env : Env) (l : list Submission) : bool :=
  forallb (fun x => key_fits (reverse_key (text (request x)))) (accepted_of URL_parses env l).



(** ** Worked inputs *)

Module Examples.

(** Stands for the platform's [URL] parser on the two bodies used below,
    both of which it accepts. *)
Definition parses (s : string) : bool :=
  String.eqb s "https://example.com/" || String.eqb s "https://example.org/".

Definition open_env : Env := mkEnv None "*".
Definition locked_env : Env := mkEnv (Some "hunter2") "*".

(** A world whose clock reads [t] and whose every draw is one half. *)
Definition world (s : gmap string string) (t : Z) : World :=
  mkWorld s t (fun _ => 1 # 2) 0.

Definition post (u : string) : Request := mkRequest "POST" "https://roulette.example/" None u.
Definition get (u : string) : Request := mkRequest "GET" u None EmptyString.

(** [n] accepted submissions, one per millisecond from [t0] on. *)
Definition burst (n : Z) (t0 : Z) : list Submission :=
  (fun i => mkSubmission (t0 + i) (post "https://example.com/")) <$> seqZ 0 n.

End Examples.

(** * Facts *)

(** ** The model on small inputs *)

Example parseInt_examples :
  parseInt "0" = Int 0 /\ parseInt "999" = Int 999 /\ parseInt " 12ab" = Int 12
  /\ parseInt "-7" = Int (-7) /\ parseInt "0x1F" = Int 31
  /\ parseInt "NaN" = NaN /\ parseInt "abc" = NaN.
Proof. repeat split. Qed.

Example parseInt_white_examples :
  parseInt (String (ascii_of_N 194) (String (ascii_of_N 160) "12")) = Int 12
  /\ parseInt (String (ascii_of_N 239) (String (ascii_of_N 187) (String (ascii_of_N 191) " 5")))
     = Int 5
  /\ parseInt (String (ascii_of_N 226) (String (ascii_of_N 128) (String (ascii_of_N 139) "5")))
     = NaN.
Proof. repeat split. Qed.

Example toString_examples :
  toString (Int 0) = "0" /\ toString (Int 1000) = "1000"
  /\ toString (Int (-42)) = "-42" /\ toString (Int 1700000000123) = "1700000000123".
Proof. repeat split. Qed.

Example endsWith_examples :
  endsWith "https://roulette.example/stats" "/stats" = true
  /\ endsWith "https://roulette.example/stats?x=1" "/stats" = false
  /\ endsWith "ats" "/stats" = false.
Proof. repeat split. Qed.

Example encodeURIComponent_example :
  encodeURIComponent "https://a.b/c d?x=1" = "https%3A%2F%2Fa.b%2Fc%20d%3Fx%3D1".
Proof. reflexivity. Qed.

Example list_example :
  KV.list "url.1"
    (KV.put "url.10.5" "b" (KV.put "url.1.7" "a" (KV.put "url.2.9" "c" (KV.put "urlCount" "3" ∅))))
  = ["url.1.7"; "url.10.5"].
Proof. reflexivity. Qed.

(** ** Decimal numerals *)

Section Numerals.

Lemma digit_cases (P : N -> Prop) :
  P 0%N -> P 1%N -> P 2%N -> P 3%N -> P 4%N -> P 5%N -> P 6%N -> P 7%N -> P 8%N -> P 9%N ->
  forall d, (d < 10)%N -> P d.
Proof.
  intros H0 H1 H2 H3 H4 H5 H6 H7 H8 H9 d Hd.
  assert (Hc : d = 0%N \/ d = 1%N \/ d = 2%N \/ d = 3%N \/ d = 4%N \/ d = 5%N \/ d = 6%N
               \/ d = 7%N \/ d = 8%N \/ d = 9%N) by lia.
  repeat (destruct Hc as [-> | Hc]; [assumption |]). now subst.
Qed.

Lemma digit_value_digit_char d : (d < 10)%N -> digit_value 10 (digit_char d) = Some d.
Proof. revert d. apply digit_cases; reflexivity. Qed.

Lemma decimal_head s :
  decimal s -> exists d r, (d < 10)%N /\ s = String (digit_char d) r /\ (r = EmptyString \/ decimal r).
Proof. destruct 1 as [d Hd | d r Hd Hr]; exists d; eauto. Qed.

Lemma digits_aux_decimal fuel : forall n acc,
  acc = EmptyString \/ decimal acc -> decimal (digits_aux fuel n acc).
Proof.
  induction fuel as [| fuel IH]; intros n acc Hacc; simpl.
  - assert (Hd : (n mod 10 < 10)%N) by (apply N.mod_lt; lia).
    destruct Hacc as [-> | Hacc]; now constructor.
  - assert (Hd : (n mod 10 < 10)%N) by (apply N.mod_lt; lia).
    assert (Hacc' : decimal (String (digit_char (n mod 10)) acc))
      by (destruct Hacc as [-> | Hacc]; now constructor).
    destruct (n <? 10)%N; [assumption | apply IH; now right].
Qed.

Lemma digits_decimal n : decimal (digits n).
Proof. apply digits_aux_decimal. now left. Qed.

Lemma scan_digits_aux fuel : forall n acc,
  (n < 10 ^ N.of_nat (S fuel))%N ->
  scan_digits 10 (digits_aux fuel n acc) 0 = scan_digits 10 acc n.
Proof.
  induction fuel as [| fuel IH]; intros n acc Hn.
  - cbn [digits_aux scan_digits]. change (10 ^ N.of_nat 1)%N with 10%N in Hn.
    rewrite digit_value_digit_char by (apply N.mod_lt; lia).
    rewrite N.mod_small by assumption. reflexivity.
  - cbn [digits_aux]. destruct (N.ltb_spec n 10) as [Hlt | Hge].
    + cbn [scan_digits]. rewrite digit_value_digit_char by (apply N.mod_lt; lia).
      rewrite N.mod_small by assumption. reflexivity.
    + rewrite IH.
      * cbn [scan_digits]. rewrite digit_value_digit_char by (apply N.mod_lt; lia).
        f_equal. pose proof (N.div_mod n 10). lia.
      * apply N.Div0.div_lt_upper_bound.
        rewrite <- N.pow_succ_r'. now rewrite <- Nnat.Nat2N.inj_succ.
Qed.

Lemma pos_below_size (p : positive) : (N.pos p < 2 ^ N.of_nat (Pos.size_nat p))%N.
Proof.
  induction p as [p IH | p IH |]; cbn [Pos.size_nat].
  - rewrite Nnat.Nat2N.inj_succ, N.pow_succ_r'.
    set (k := (2 ^ N.of_nat (Pos.size_nat p))%N) in *. lia.
  - rewrite Nnat.Nat2N.inj_succ, N.pow_succ_r'.
    set (k := (2 ^ N.of_nat (Pos.size_nat p))%N) in *. lia.
  - cbn. lia.
Qed.

Lemma below_size n : (n < 10 ^ N.of_nat (S (N.size_nat n)))%N.
Proof.
  rewrite Nnat.Nat2N.inj_succ, N.pow_succ_r'.
  assert (H2 : (2 ^ N.of_nat (N.size_nat n) <= 10 ^ N.of_nat (N.size_nat n))%N)
    by (apply N.pow_le_mono_l; lia).
  destruct n as [| p]; [cbn; lia |]. pose proof (pos_below_size p) as Hp.
  cbn [N.size_nat] in *.
  set (a := (2 ^ N.of_nat (Pos.size_nat p))%N) in *.
  set (b := (10 ^ N.of_nat (Pos.size_nat p))%N) in *. lia.
Qed.

Lemma scan_digits_digits n : scan_digits 10 (digits n) 0 = n.
Proof. unfold digits. rewrite scan_digits_aux by apply below_size. reflexivity. Qed.

Lemma is_white_digit_char d : (d < 10)%N -> is_white (digit_char d) = false.
Proof. revert d. apply digit_cases; reflexivity. Qed.

Lemma digit_char_ascii d : (d < 10)%N -> (N_of_ascii (digit_char d) < 128)%N.
Proof. revert d. apply digit_cases; reflexivity. Qed.

(** Nothing is skipped in front of an ASCII character that is not white
    space. *)
Lemma skip_white_ascii c r :
  is_white c = false -> (N_of_ascii c < 128)%N -> skip_white (String c r) = String c r.
Proof.
  intros Hw Hc. cbn [skip_white]. rewrite Hw.
  destruct r as [| c2 r2]; [reflexivity |].
  assert (H2 : is_white2 c c2 = false).
  { unfold is_white2. destruct (N.eqb_spec (N_of_ascii c) 194); [lia | reflexivity]. }
  rewrite H2. destruct r2 as [| c3 r3]; [reflexivity |].
  assert (H3 : is_white3 c c2 c3 = false).
  { unfold is_white3.
    destruct (N.eqb_spec (N_of_ascii c) 225); [lia |].
    destruct (N.eqb_spec (N_of_ascii c) 226); [lia |].
    destruct (N.eqb_spec (N_of_ascii c) 227); [lia |].
    destruct (N.eqb_spec (N_of_ascii c) 239); [lia | reflexivity]. }
  now rewrite H3.
Qed.

Lemma no_sign_digit_char d r :
  (d < 10)%N ->
  startsWith (String (digit_char d) r) "-" = false
  /\ startsWith (String (digit_char d) r) "+" = false.
Proof. revert d. apply digit_cases; split; reflexivity. Qed.

Lemma no_hex_prefix_decimal s :
  decimal s -> startsWith s "0x" || startsWith s "0X" = false.
Proof.
  intros Hs. destruct (decimal_head s Hs) as (d & r & Hd & -> & Hr). clear Hs.
  revert d Hd. apply digit_cases; try reflexivity.
  destruct Hr as [-> | Hr]; [reflexivity |].
  destruct (decimal_head r Hr) as (d' & r' & Hd' & -> & _). clear Hr.
  revert d' Hd'. apply digit_cases; reflexivity.
Qed.

Lemma starts_with_digit_decimal s : decimal s -> starts_with_digit 10 s = true.
Proof.
  intros Hs. destruct (decimal_head s Hs) as (d & r & Hd & -> & _).
  cbn [starts_with_digit]. now rewrite digit_value_digit_char.
Qed.

Lemma parseInt_decimal s :
  decimal s -> parseInt s = Int (Z.of_N (scan_digits 10 s 0)).
Proof.
  intros Hs. pose proof (no_hex_prefix_decimal s Hs) as Hhex.
  pose proof (starts_with_digit_decimal s Hs) as Hdig.
  destruct (decimal_head s Hs) as (d & r & Hd & -> & _).
  unfold parseInt.
  rewrite (skip_white_ascii _ r (is_white_digit_char d Hd) (digit_char_ascii d Hd)).
  destruct (no_sign_digit_char d r Hd) as [-> ->]. cbn [orb].
  rewrite Hhex, Hdig. reflexivity.
Qed.

Lemma parseInt_minus_decimal s :
  decimal s -> parseInt (String "-"%char s) = Int (- Z.of_N (scan_digits 10 s 0)).
Proof.
  intros Hs. pose proof (no_hex_prefix_decimal s Hs) as Hhex.
  pose proof (starts_with_digit_decimal s Hs) as Hdig.
  assert (Hminus : startsWith (String "-"%char s) "-" = true) by now destruct s.
  unfold parseInt. rewrite (skip_white_ascii "-"%char s eq_refl eq_refl).
  rewrite Hminus. cbn [orb Str.drop].
  rewrite Hhex, Hdig. reflexivity.
Qed.

(** Reading back what [toString] wrote gives the number again. *)
Lemma parseInt_toString z : parseInt (toString (Int z)) = Int z.
Proof.
  destruct z as [| p | p]; cbn [toString].
  - reflexivity.
  - rewrite parseInt_decimal by apply digits_decimal.
    rewrite scan_digits_digits. now rewrite Z2N.id by lia.
  - rewrite parseInt_minus_decimal by apply digits_decimal.
    rewrite scan_digits_digits. reflexivity.
Qed.

Lemma toString_inj y z : toString (Int y) = toString (Int z) -> y = z.
Proof.
  intros H. apply (f_equal parseInt) in H. rewrite !parseInt_toString in H. congruence.
Qed.

Lemma decimal_no_dot s : decimal s -> contains "."%char s = false.
Proof.
  induction 1 as [d Hd | d s Hd Hs IH]; cbn [contains].
  - revert d Hd. apply digit_cases; reflexivity.
  - rewrite IH. revert d Hd. apply digit_cases; reflexivity.
Qed.

Lemma toString_no_dot z : contains "."%char (toString (Int z)) = false.
Proof.
  destruct z as [| p | p]; cbn [toString]; [reflexivity | |].
  - apply decimal_no_dot, digits_decimal.
  - cbn [contains]. rewrite decimal_no_dot by apply digits_decimal. reflexivity.
Qed.

Lemma toString_not_empty z : toString (Int z) <> EmptyString.
Proof.
  destruct z as [| p | p]; cbn [toString]; try discriminate.
  destruct (decimal_head _ (digits_decimal (Z.to_N (Z.pos p)))) as (d & r & _ & -> & _).
  discriminate.
Qed.

Lemma or_zero_toString z : or_zero (Some (toString (Int z))) = toString (Int z).
Proof.
  pose proof (toString_not_empty z) as H. unfold or_zero.
  now destruct (toString (Int z)).
Qed.

End Numerals.

(** ** Keys *)

Section Keys.

Lemma url_key_not_counter p t :
  url_key p t <> "urlCount" /\ url_key p t <> "urlPrefix".
Proof. split; discriminate. Qed.

Lemma reverse_key_not_counter u :
  reverse_key u <> "urlCount" /\ reverse_key u <> "urlPrefix".
Proof. split; discriminate. Qed.

Lemma url_key_not_reverse_key p t u : url_key p t <> reverse_key u.
Proof. discriminate. Qed.

Lemma append_dot_inj a a' b b' :
  contains "."%char a = false -> contains "."%char a' = false ->
  a ++ "." ++ b = a' ++ "." ++ b' -> a = a' /\ b = b'.
Proof.
  revert a'. induction a as [| c a IH]; intros [| c' a'] Ha Ha' H; cbn in *.
  - now inversion H.
  - inversion H; subst. discriminate.
  - inversion H; subst. discriminate.
  - apply orb_false_iff in Ha as [_ Ha]. apply orb_false_iff in Ha' as [_ Ha'].
    inversion H; subst. destruct (IH a' Ha Ha') as [-> ->]; auto.
Qed.

(** Different shards or different clock readings give different keys. *)
Lemma url_key_inj p t p' t' :
  url_key (Int p) (Int t) = url_key (Int p') (Int t') -> p = p' /\ t = t'.
Proof.
  unfold url_key. intros H. cbn [String.append] in H.
  injection H as H.
  apply append_dot_inj in H as [Hp Ht]; try apply toString_no_dot.
  split; now apply toString_inj.
Qed.

End Keys.

(** ** What one submission does *)

Section Submission.

Variable URL_parses : string -> bool.

Lemma load_lookup s :
  load s = Normal (parseInt (or_zero (s !! "urlCount")), parseInt (or_zero (s !! "urlPrefix"))).
Proof. reflexivity. Qed.

Lemma getUrlCountAndPrefix_load w : getUrlCountAndPrefix w = (load (kv w), w).
Proof. reflexivity. Qed.

Lemma handleCreate_rejected env req w :
  accepted URL_parses env req = false ->
  handleCreate URL_parses env req w =
    (Normal (status (if unauthorized env req then 401 else 400)), w).
Proof.
  unfold accepted, handleCreate. intros H.
  destruct (unauthorized env req); [reflexivity |].
  unfold bind. rewrite getUrlCountAndPrefix_load, load_lookup.
  destruct (startsWith (text req) "http://"), (startsWith (text req) "https://");
    cbn in H |- *; try reflexivity; now rewrite H.
Qed.

Lemma handleCreate_accepted env req w :
  accepted URL_parses env req = true ->
  handleCreate URL_parses env req w =
    (Normal (status 201),
     set_kv (writes (parseInt (or_zero (kv w !! "urlCount")))
                    (parseInt (or_zero (kv w !! "urlPrefix"))) (now w) (text req)) w).
Proof.
  unfold accepted, handleCreate. intros H.
  apply andb_prop in H as [H Hurl]. apply andb_prop in H as [Hauth Hscheme].
  apply negb_true_iff in Hauth. rewrite Hauth.
  unfold bind. rewrite getUrlCountAndPrefix_load, load_lookup.
  assert (Hs : negb (startsWith (text req) "http://") && negb (startsWith (text req) "https://")
               = false) by (rewrite <- negb_orb, Hscheme; reflexivity).
  rewrite Hs, Hurl. cbn [negb].
  unfold writes, set_kv, KV_put, Date_getTime, ret.
  destruct (strict_eq _ _); reflexivity.
Qed.

Lemma accepted_iff_created env req w :
  fst (handleCreate URL_parses env req w) = Normal (status 201)
  <-> accepted URL_parses env req = true.
Proof.
  split; intros H.
  - destruct (accepted URL_parses env req) eqn:Hacc; [reflexivity |].
    rewrite handleCreate_rejected in H by assumption.
    destruct (unauthorized env req); discriminate.
  - now rewrite handleCreate_accepted.
Qed.

Lemma submit_rejected env s x :
  accepted URL_parses env (request x) = false -> submit URL_parses env s x = s.
Proof. intros H. unfold submit. now rewrite handleCreate_rejected. Qed.

Lemma submit_accepted env s x :
  accepted URL_parses env (request x) = true ->
  submit URL_parses env s x =
    writes (parseInt (or_zero (s !! "urlCount"))) (parseInt (or_zero (s !! "urlPrefix")))
           (at_time x) (text (request x)) s.
Proof. intros H. unfold submit. now rewrite handleCreate_accepted. Qed.

(** The counter after the writes of an accepted submission. *)
Lemma load_writes k p t u s :
  load s = Normal (Int k, Int p) ->
  load (writes (Int k) (Int p) t u s) =
    Normal (if k + 1 =? 1000 then (Int 0, Int (p + 1)) else (Int (k + 1), Int p)).
Proof.
  rewrite !load_lookup. intros Hs. injection Hs as Hk Hp.
  destruct (url_key_not_counter (Int p) (Int t)) as [Hc1 Hp1].
  destruct (reverse_key_not_counter u) as [Hc2 Hp2].
  unfold writes, KV.put. cbn [add strict_eq].
  destruct (k + 1 =? 1000).
  - rewrite lookup_insert_eq.
    rewrite lookup_insert_ne by discriminate. rewrite lookup_insert_eq.
    rewrite or_zero_toString, parseInt_toString. reflexivity.
  - rewrite lookup_insert_eq, or_zero_toString, parseInt_toString.
    rewrite lookup_insert_ne by discriminate.
    rewrite lookup_insert_ne by assumption.
    rewrite lookup_insert_ne by assumption.
    now rewrite Hp.
Qed.

End Submission.

(** ** Sequences of submissions *)

Section Sequences.

Variable URL_parses : string -> bool.
Variable env : Env.

Lemma counter_ok_empty : counter_ok ∅.
Proof. exists 0, 0. repeat split; lia. Qed.

Lemma counter_ok_submit s x : counter_ok s -> counter_ok (submit URL_parses env s x).
Proof.
  intros (c & p & Hload & Hc & Hp).
  destruct (accepted URL_parses env (request x)) eqn:Hacc.
  - rewrite submit_accepted by assumption.
    pose proof Hload as Hl. rewrite load_lookup in Hl. injection Hl as Hk Hq.
    unfold counter_ok. rewrite Hk, Hq, (load_writes c p _ _ _ Hload).
    destruct (Z.eqb_spec (c + 1) 1000).
    + exists 0, (p + 1). repeat split; lia.
    + exists (c + 1), p. repeat split; lia.
  - rewrite submit_rejected by assumption. now exists c, p.
Qed.

Lemma counter_ok_foldl l : forall s,
  counter_ok s -> counter_ok (foldl (submit URL_parses env) s l).
Proof.
  induction l as [| x l IH]; intros s Hs; [assumption |].
  cbn [foldl]. apply IH, counter_ok_submit, Hs.
Qed.

Lemma counter_ok_run l : counter_ok (run URL_parses env l).
Proof. apply counter_ok_foldl, counter_ok_empty. Qed.

Lemma keys_from_submit times times' s x :
  counter_ok s -> keys_from times s ->
  (forall t, t ∈ times -> t ∈ times') -> at_time x ∈ times' ->
  keys_from times' (submit URL_parses env s x).
Proof.
  intros (c & p & Hload & _) Hkeys Hsub Hx.
  assert (Hold : forall k, is_Some (s !! k) ->
            k = "urlCount" \/ k = "urlPrefix" \/ (exists u, k = reverse_key u)
            \/ exists p t, k = url_key (Int p) (Int t) /\ t ∈ times').
  { intros k Hk. destruct (Hkeys k Hk) as [? | [? | [? | (p' & t' & ? & ?)]]]; eauto 8. }
  destruct (accepted URL_parses env (request x)) eqn:Hacc.
  - rewrite submit_accepted by assumption.
    rewrite load_lookup in Hload. injection Hload as -> ->.
    intros k. unfold writes, KV.put. destruct (strict_eq _ _);
      rewrite !lookup_insert_is_Some; intros Hk;
      repeat (destruct Hk as [<- | [_ Hk]]); eauto 8.
  - rewrite submit_rejected by assumption. exact Hold.
Qed.

Lemma run_snoc l x :
  run URL_parses env (l ++ [x]) = submit URL_parses env (run URL_parses env l) x.
Proof. unfold run. apply foldl_snoc. Qed.

Lemma keys_from_run l : keys_from (at_time <$> l) (run URL_parses env l).
Proof.
  induction l as [| x l IH] using rev_ind.
  - intros k [v Hk]. unfold run in Hk. cbn in Hk. now rewrite lookup_empty in Hk.
  - rewrite run_snoc. eapply keys_from_submit; [apply counter_ok_run | exact IH | |].
    + intros t Ht. rewrite fmap_app. apply elem_of_app. now left.
    + rewrite fmap_app. apply elem_of_app. right. cbn. apply list_elem_of_here.
Qed.

(** An accepted submission files its body under [entry_key]. *)
Lemma entry_filed s x :
  accepted URL_parses env (request x) = true ->
  submit URL_parses env s x !! entry_key s x = Some (text (request x)).
Proof.
  intros Hacc. rewrite submit_accepted by assumption. unfold entry_key.
  set (p := parseInt (or_zero (s !! "urlPrefix"))).
  destruct (url_key_not_counter p (Int (at_time x))) as [Hc Hp].
  pose proof (url_key_not_reverse_key p (Int (at_time x)) (text (request x))) as Hr.
  unfold writes, KV.put. destruct (strict_eq _ _).
  - rewrite lookup_insert_ne by congruence. rewrite lookup_insert_ne by congruence.
    rewrite lookup_insert_ne by congruence. apply lookup_insert_eq.
  - rewrite lookup_insert_ne by congruence.
    rewrite lookup_insert_ne by congruence. apply lookup_insert_eq.
Qed.

(** A submission at another clock reading leaves an entry alone. *)
Lemma entry_kept s y p t v :
  counter_ok s -> at_time y <> t ->
  s !! url_key (Int p) (Int t) = Some v ->
  submit URL_parses env s y !! url_key (Int p) (Int t) = Some v.
Proof.
  intros (c & q & Hload & _) Hne Hv.
  destruct (accepted URL_parses env (request y)) eqn:Hacc.
  - rewrite submit_accepted by assumption.
    rewrite load_lookup in Hload. injection Hload as -> ->.
    destruct (url_key_not_counter (Int p) (Int t)) as [Hc Hp].
    pose proof (url_key_not_reverse_key (Int p) (Int t) (text (request y))) as Hr.
    assert (Hk : url_key (Int q) (Int (at_time y)) <> url_key (Int p) (Int t))
      by (intros H; apply url_key_inj in H as [_ H]; contradiction).
    unfold writes, KV.put. destruct (strict_eq _ _).
    + rewrite lookup_insert_ne by congruence. rewrite lookup_insert_ne by congruence.
      rewrite lookup_insert_ne by congruence. now rewrite lookup_insert_ne by congruence.
    + rewrite lookup_insert_ne by congruence.
      rewrite lookup_insert_ne by congruence. now rewrite lookup_insert_ne by congruence.
  - now rewrite submit_rejected.
Qed.

Lemma entry_kept_foldl l : forall s p t v,
  counter_ok s -> (forall y, y ∈ l -> at_time y <> t) ->
  s !! url_key (Int p) (Int t) = Some v ->
  foldl (submit URL_parses env) s l !! url_key (Int p) (Int t) = Some v.
Proof.
  induction l as [| y l IH]; intros s p t v Hs Hl Hv; [assumption |].
  cbn [foldl]. apply IH.
  - now apply counter_ok_submit.
  - intros z Hz. apply Hl. now apply list_elem_of_further.
  - apply entry_kept; [assumption | apply Hl, list_elem_of_here | assumption].
Qed.

End Sequences.

(** ** Counting the targets of a shard *)

Section Counting.

Lemma targets_of_shard_S n s :
  targets_of_shard (Z.of_nat (S n)) s =
    (targets_of_shard (Z.of_nat n) s + (if (Z.of_nat n / 1000 =? s)%Z then 1 else 0))%nat.
Proof.
  unfold targets_of_shard. rewrite seqZ_S, filter_app, length_app. f_equal.
  cbn [targetUrlPrefix floor_div strict_eq]. rewrite Z.add_0_l.
  destruct (Z.of_nat n / 1000 =? s) eqn:E.
  - now rewrite filter_cons_True.
  - rewrite filter_cons_False; [reflexivity | congruence].
Qed.

Lemma targets_of_shard_nat n s :
  0 <= s ->
  Z.of_nat (targets_of_shard (Z.of_nat n) s)
    = Z.max 0 (Z.min (Z.of_nat n) (1000 * s + 1000) - 1000 * s).
Proof.
  intros Hs. induction n as [| n IH].
  - replace (targets_of_shard (Z.of_nat 0) s) with 0%nat by reflexivity. lia.
  - rewrite targets_of_shard_S, Nat2Z.inj_add, IH.
    destruct (Z.eqb_spec (Z.of_nat n / 1000) s) as [E | E];
      revert E; Z.div_mod_to_equations; lia.
Qed.

Lemma targets_of_shard_count total s :
  0 <= s -> 0 <= total ->
  Z.of_nat (targets_of_shard total s) = Z.max 0 (Z.min total (1000 * s + 1000) - 1000 * s).
Proof.
  intros Hs Ht. rewrite <- (Z2Nat.id total Ht) at 1 2. rewrite targets_of_shard_nat by assumption.
  now rewrite Z2Nat.id.
Qed.

End Counting.

(** ** The draw *)

Section Draw.

Lemma floor_mul_range (r : Q) (m : Z) :
  (0 <= r)%Q -> (r < 1)%Q ->
  (0 < m -> 0 <= Qfloor (r * inject_Z m) < m)
  /\ (m <= 0 -> m <= Qfloor (r * inject_Z m) <= 0).
Proof.
  destruct r as [a b]. unfold Qle, Qlt. cbn [Qnum Qden]. intros H0 H1.
  unfold Qfloor. cbn [Qmult inject_Z Qnum Qden]. rewrite Pos.mul_1_r.
  split; intros Hm; Z.div_mod_to_equations; nia.
Qed.

End Draw.

(** ** Listings and bursts of submissions *)

Section Bursts.

Import Examples.

Lemma elem_of_matching prefix (s : gmap string string) k :
  k ∈ KV.matching prefix s <-> is_Some (s !! k) /\ startsWith k prefix = true.
Proof.
  unfold KV.matching. rewrite merge_sort_Permutation, list_elem_of_filter.
  rewrite elem_of_elements, elem_of_dom. tauto.
Qed.

Lemma burst_S n t0 :
  burst (Z.of_nat (S n)) t0
    = (burst (Z.of_nat n) t0
         ++ [mkSubmission (t0 + Z.of_nat n) (post "https://example.com/")])%list.
Proof. unfold burst. now rewrite seqZ_S, fmap_app. Qed.

Lemma burst_split i n t0 :
  0 <= i < n ->
  burst n t0
    = (burst i t0 ++ mkSubmission (t0 + i) (post "https://example.com/")
        :: ((fun j => mkSubmission (t0 + j) (post "https://example.com/"))
              <$> seqZ (Z.succ i) (Z.pred (n - i))))%list.
Proof.
  intros Hi. unfold burst. replace n with (i + (n - i)) at 1 by lia.
  rewrite seqZ_app by lia. rewrite (seqZ_cons (0 + i)) by lia.
  now rewrite fmap_app, fmap_cons.
Qed.

(** After [n] accepted submissions the counter reads [n mod 1000] in
    shard [n / 1000]. *)
Lemma load_burst n t0 :
  load (run parses open_env (burst (Z.of_nat n) t0))
    = Normal (Int (Z.of_nat n mod 1000), Int (Z.of_nat n / 1000)).
Proof.
  induction n as [| n IH]; [reflexivity |].
  rewrite burst_S, run_snoc, submit_accepted by reflexivity.
  pose proof IH as Hl. rewrite load_lookup in Hl. injection Hl as Hk Hp.
  rewrite Hk, Hp, (load_writes _ _ _ _ _ IH). rewrite Nat2Z.inj_succ.
  set (m := Z.of_nat n) in *.
  destruct (Z.eqb_spec (m mod 1000 + 1) 1000) as [E | E].
  - replace (Z.succ m mod 1000) with 0 by (revert E; Z.div_mod_to_equations; lia).
    replace (Z.succ m / 1000) with (m / 1000 + 1)
      by (revert E; Z.div_mod_to_equations; lia).
    reflexivity.
  - replace (Z.succ m mod 1000) with (m mod 1000 + 1)
      by (revert E; Z.div_mod_to_equations; lia).
    replace (Z.succ m / 1000) with (m / 1000)
      by (revert E; Z.div_mod_to_equations; lia).
    reflexivity.
Qed.

Lemma load_burst_Z n t0 :
  0 <= n ->
  load (run parses open_env (burst n t0)) = Normal (Int (n mod 1000), Int (n / 1000)).
Proof. intros Hn. rewrite <- (Z2Nat.id n Hn). apply load_burst. Qed.

(** The [i]-th submission of a burst stays filed in shard [i / 1000]. *)
Lemma entry_in_burst i n t0 :
  0 <= i < n ->
  run parses open_env (burst n t0) !! url_key (Int (i / 1000)) (Int (t0 + i))
    = Some "https://example.com/".
Proof.
  intros Hi. rewrite (burst_split i n t0 Hi). unfold run. rewrite foldl_app. cbn [foldl].
  fold (run parses open_env (burst i t0)).
  apply entry_kept_foldl.
  - apply counter_ok_submit, counter_ok_run.
  - intros y Hy. apply list_elem_of_fmap in Hy as (j & -> & Hj).
    apply elem_of_seqZ in Hj. cbn [at_time]. lia.
  - pose proof (load_burst_Z i t0 ltac:(lia)) as Hl.
    rewrite load_lookup in Hl. injection Hl as _ Hp.
    pose proof (entry_filed parses open_env (run parses open_env (burst i t0))
                  (mkSubmission (t0 + i) (post "https://example.com/")) eq_refl) as Hf.
    unfold entry_key in Hf. rewrite Hp in Hf. exact Hf.
Qed.

Lemma is_Some_matching prefix (s : gmap string string) k v :
  s !! k = Some v -> startsWith k prefix = true -> k ∈ KV.matching prefix s.
Proof. intros Hk Hp. apply elem_of_matching. split; [now exists v | assumption]. Qed.

(** A namespace that holds entries of shard 1 filed at [n] successive
    clock readings and one entry of shard 10 has more than [n] keys under
    the prefix handed to [list] for shard 1. *)
Lemma matching_shard_1 (s : gmap string string) t0 n t v :
  0 <= n ->
  (forall i, 0 <= i < n -> s !! url_key (Int 1) (Int (t0 + i)) = Some v) ->
  s !! url_key (Int 10) (Int t) = Some v ->
  url_key (Int 10) (Int t) ∈ KV.matching (list_prefix (Int 1)) s
  /\ (Z.to_nat n < length (KV.matching (list_prefix (Int 1)) s))%nat.
Proof.
  intros Hn Hown Hforeign.
  assert (Hin : url_key (Int 10) (Int t) ∈ KV.matching (list_prefix (Int 1)) s)
    by (eapply is_Some_matching; [exact Hforeign | reflexivity]).
  split; [exact Hin |].
  set (own := (fun i => url_key (Int 1) (Int (t0 + i))) <$> seqZ 0 n).
  assert (Hsub : (url_key (Int 10) (Int t) :: own) ⊆+ KV.matching (list_prefix (Int 1)) s).
  { apply NoDup_submseteq.
    - constructor.
      + intros Hmem. apply list_elem_of_fmap in Hmem as (i & Heq & _).
        apply url_key_inj in Heq as [Heq _]. discriminate.
      + apply NoDup_fmap_2_strong; [| apply NoDup_seqZ].
        intros i j _ _ Heq. apply url_key_inj in Heq as [_ Heq]. lia.
    - intros k Hk. apply elem_of_cons in Hk as [-> | Hk]; [exact Hin |].
      apply list_elem_of_fmap in Hk as (i & -> & Hi). apply elem_of_seqZ in Hi.
      eapply is_Some_matching; [apply Hown; lia | reflexivity]. }
  apply submseteq_length in Hsub. subst own.
  cbn [length] in Hsub. rewrite length_fmap, length_seqZ in Hsub. lia.
Qed.

(** The second thousand of a burst is filed in shard 1. *)
Lemma second_thousand_in_burst n t0 i :
  2000 <= n -> 0 <= i < 1000 ->
  run parses open_env (burst n t0) !! url_key (Int 1) (Int (t0 + 1000 + i))
    = Some "https://example.com/".
Proof.
  intros Hn Hi.
  assert (Hr : 0 <= 1000 + i < n) by lia.
  assert (E1 : (1000 + i) / 1000 = 1) by (Z.div_mod_to_equations; lia).
  assert (E2 : t0 + 1000 + i = t0 + (1000 + i)) by lia.
  rewrite E2, <- E1 at 1. now apply entry_in_burst.
Qed.

End Bursts.

(** ** Suffixes *)

Section Suffixes.






End Suffixes.

(** ** Shard and clock reading of the accepted submissions *)

Section Stamps.

Variable URL_parses : string -> bool.
Variable env : Env.





End Stamps.

(** * The claims *)

Import Examples.

(** C1 (the code departs from the claim).  A GET that is not for the
    statistics, served on a namespace where the listing of the shard it
    targets is empty, does not answer at all: the second draw is taken
    against bound 0, gives index 0, the key list has no element 0 and
    reading its [name] throws a [TypeError].  In particular every such GET
    on an empty namespace throws. *)
Theorem handleGet_empty_listing_throws env req w c p :
  endsWith (url req) "/stats" = false ->
  load (kv w) = Normal (c, p) ->
  KV.list (list_prefix (targetUrlPrefix
             (floor_mul (random w (drawn w)) (estimatedTotalUrlCount c p)))) (kv w) = [] ->
  fst (handleGet env req w) = Throw TypeError.
Proof.
  intros Hstats Hload Hlist. unfold handleGet. rewrite Hstats.
  unfold bind at 1. rewrite getUrlCountAndPrefix_load, Hload.
  unfold rand, bind, Math_random, ret, KV_list. cbn [kv random drawn now].
  rewrite Hlist. cbn [length floor_mul name_at].
  destruct (Qfloor _ <? 0); [reflexivity |]. now rewrite lookup_nil.
Qed.

Lemma handleGet_empty_listing_throws_witness :
  fst (handleGet open_env (get "https://roulette.example/") (world ∅ 1700000000000))
    = Throw TypeError.
Proof.
  apply (handleGet_empty_listing_throws _ _ _ (Int 0) (Int 0)); reflexivity.
Defined.

(** C2.  A submission that is accepted (answered 201) on a namespace whose
    counter reads [(k, p)] leaves the counter reading [(k + 1, p)] when
    [k + 1] is below 1000 and [(0, p + 1)] when [k + 1] is 1000.  The test
    is an equality: beyond 1000 the count goes on growing in the same
    shard.  The counter is one a double holds exactly (magnitudes below
    2^53) and the reverse key of the body is one the platform stores (at
    most 512 bytes), so that the three or four writes are carried out. *)
Theorem counter_after_submission URL_parses env req w k p :
  fst (handleCreate URL_parses env req w) = Normal (status 201) ->
  load (kv w) = Normal (Int k, Int p) ->
  small k -> small p -> key_fits (reverse_key (text req)) = true ->
  let after := load (kv (snd (handleCreate URL_parses env req w))) in
  (k + 1 < 1000 -> after = Normal (Int (k + 1), Int p))
  /\ (k + 1 = 1000 -> after = Normal (Int 0, Int (p + 1)))
  /\ (1000 < k + 1 -> after = Normal (Int (k + 1), Int p)).
Proof.
  intros Hok Hload _ _ _ after. subst after.
  apply accepted_iff_created in Hok. rewrite handleCreate_accepted by assumption.
  pose proof Hload as Hl. rewrite load_lookup in Hl. injection Hl as Hk Hp.
  cbn [snd set_kv kv]. rewrite Hk, Hp, (load_writes k p _ _ _ Hload).
  destruct (Z.eqb_spec (k + 1) 1000); repeat split; intros; first [reflexivity | lia | congruence].
Qed.

Lemma counter_after_submission_witness :
  let w := world {[ "urlCount" := "999"; "urlPrefix" := "4" ]} 1700000000000 in
  let w' := snd (handleCreate parses open_env (post "https://example.com/") w) in
  load (kv w) = Normal (Int 999, Int 4) /\ load (kv w') = Normal (Int 0, Int 5).
Proof.
  split; [reflexivity |].
  apply (counter_after_submission parses open_env (post "https://example.com/")
           (world {[ "urlCount" := "999"; "urlPrefix" := "4" ]} 1700000000000) 999 4);
    reflexivity.
Defined.

(** C3.  With a count between 0 and 1000 and current shard [p], the
    estimated total is [p * 1000 + c] (a total a double holds exactly, at
    most 2^53); among the targets [0 <= t < p * 1000 + c], exactly 1000 are
    sent by [floor(t / 1000)] to each closed shard [s < p] and exactly [c]
    to the current shard [p]. *)
Theorem shard_selection_counts c p :
  0 <= c <= 1000 -> 0 <= p -> p * 1000 + c <= 2 ^ 53 ->
  estimatedTotalUrlCount (Int c) (Int p) = Int (p * 1000 + c)
  /\ (forall s, 0 <= s < p -> targets_of_shard (p * 1000 + c) s = 1000%nat)
  /\ targets_of_shard (p * 1000 + c) p = Z.to_nat c.
Proof.
  intros Hc Hp _. split; [reflexivity |]. split.
  - intros s Hs. apply Nat2Z.inj. rewrite targets_of_shard_count by lia. lia.
  - apply Nat2Z.inj. rewrite targets_of_shard_count by lia. lia.
Qed.

Lemma shard_selection_counts_witness :
  estimatedTotalUrlCount (Int 500) (Int 1) = Int 1500
  /\ targets_of_shard 1500 0 = 1000%nat
  /\ targets_of_shard 1500 1 = 500%nat.
Proof.
  destruct (shard_selection_counts 500 1) as (Htotal & Hclosed & Hcurrent);
    [lia | lia | lia |].
  split; [exact Htotal |]. split; [apply Hclosed; lia | exact Hcurrent].
Defined.



(** C5 (the code departs from the claim).  [rand] is documented as drawing
    a number between 0 and max, exclusive, but it has no guard: with bound
    0 it returns 0, which is not below the bound, and with a negative
    bound a number between the bound and 0; it never fails.  The index 0
    that [handleGet] reads off an empty key list comes from here. *)
Lemma rand_does_not_guard :
  fst (rand (Int 0) (world ∅ 0)) = Normal (Int 0)
  /\ fst (rand (Int (-3)) (world ∅ 0)) = Normal (Int (-2)).
Proof. split; reflexivity. Qed.

(** C6 (the code departs from the claim).  The prefix handed to [list] for
    shard 1 is [url.1], without the dot that ends the shard index, so it
    also matches the keys of shards 10, 11, ...  After 10001 accepted
    submissions, one per millisecond, the counter reads [(1, 10)], the
    last body is filed in shard 10 under a key that matches the prefix of
    shard 1, and more than 1000 stored keys match that prefix. *)
Theorem list_prefix_matches_later_shards :
  let s := run parses open_env (burst 10001 1700000000000) in
  let foreign := url_key (Int 10) (Int 1700000010000) in
  load s = Normal (Int 1, Int 10)
  /\ s !! foreign = Some "https://example.com/"
  /\ foreign ∈ KV.matching (list_prefix (Int 1)) s
  /\ (1000 < length (KV.matching (list_prefix (Int 1)) s))%nat.
Proof.
  assert (H10 : 0 <= 10000 < 10001) by lia.
  assert (H1 : 0 <= 10001) by lia.
  assert (H2 : 2000 <= 10001) by lia.
  assert (H3 : 0 <= 1000) by lia.
  intros s foreign.
  assert (Hforeign : s !! foreign = Some "https://example.com/")
    by exact (entry_in_burst 10000 10001 1700000000000 H10).
  split; [exact (load_burst_Z 10001 1700000000000 H1) |].
  split; [exact Hforeign |].
  apply (matching_shard_1 s 1700000001000 1000 1700000010000 "https://example.com/" H3);
    [| exact Hforeign].
  intros i Hi. exact (second_thousand_in_burst 10001 1700000000000 i H2 Hi).
Qed.

(** C7 as stated fails: the secret is checked before the body, so a POST
    with a bad body and a wrong or missing secret is answered 401, not
    400. *)
Lemma bad_body_without_secret_is_401 :
  startsWith "ftp://example.com" "http://" = false
  /\ startsWith "ftp://example.com" "https://" = false
  /\ fst (handleCreate parses locked_env (post "ftp://example.com") (world ∅ 0))
       = Normal (status 401).
Proof. repeat split. Qed.

(** C7, amended.  A POST whose body starts with neither [http://] nor
    [https://], or whose body the URL parser refuses, is answered 400 when
    it passes the check of the secret and 401 when it does not; in both
    cases the world, and so the namespace, is left as it was. *)
Theorem invalid_body_rejected URL_parses env req w :
  (startsWith (text req) "http://" = false /\ startsWith (text req) "https://" = false)
  \/ URL_parses (text req) = false ->
  handleCreate URL_parses env req w
    = (Normal (status (if unauthorized env req then 401 else 400)), w).
Proof.
  intros H. apply handleCreate_rejected. unfold accepted.
  destruct H as [[-> ->] | ->]; cbn [orb].
  - now rewrite andb_false_r.
  - apply andb_false_r.
Qed.

Lemma invalid_body_rejected_witness :
  handleCreate parses open_env (post "ftp://example.com") (world ∅ 0)
    = (Normal (status 400), world ∅ 0).
Proof.
  apply (invalid_body_rejected parses open_env (post "ftp://example.com") (world ∅ 0)).
  left. split; reflexivity.
Defined.

(** C8.  On an empty namespace the counter loads as [(0, 0)], without
    error; after any sequence of submissions served one after the other
    from the empty namespace, the stored counter is a pair of integers with
    [0 <= urlCount <= 1000] and [0 <= urlPrefix]. *)
Theorem counter_invariant URL_parses env :
  (forall t r n, fst (getUrlCountAndPrefix (mkWorld ∅ t r n)) = Normal (Int 0, Int 0))
  /\ forall l, exists c p,
       load (run URL_parses env l) = Normal (Int c, Int p) /\ 0 <= c <= 1000 /\ 0 <= p.
Proof.
  split; [reflexivity |].
  intros l. destruct (counter_ok_run URL_parses env l) as (c & p & Hload & Hc & Hp).
  exists c, p. repeat split; [assumption | lia | lia | assumption].
Qed.





(** * Further properties of the worker *)

(** ** Prefixes *)

Section Prefixes.

Lemma startsWith_empty s : startsWith s EmptyString = true.
Proof. now destruct s. Qed.

Lemma startsWith_cons c s p :
  startsWith (String c s) (String c p) = startsWith s p.
Proof.
  unfold startsWith. cbn [String.prefix].
  destruct (Ascii.ascii_dec c c) as [_ | Hne]; [reflexivity | contradiction].
Qed.

Lemma startsWith_cons_inv c s d p :
  startsWith (String c s) (String d p) = true -> c = d /\ startsWith s p = true.
Proof.
  unfold startsWith. cbn [String.prefix].
  destruct (Ascii.ascii_dec d c) as [-> | Hne]; [auto | discriminate].
Qed.

Lemma startsWith_append a b : startsWith (a ++ b) a = true.
Proof.
  induction a as [| c a IH].
  - apply startsWith_empty.
  - change (String c a ++ b) with (String c (a ++ b)). now rewrite startsWith_cons.
Qed.

Lemma startsWith_shorter a b k :
  startsWith k (a ++ b) = true -> startsWith k a = true.
Proof.
  revert k. induction a as [| c a IH]; intros k H.
  - apply startsWith_empty.
  - destruct k as [| d k]; [discriminate |].
    change (String c a ++ b) with (String c (a ++ b)) in H.
    apply startsWith_cons_inv in H as [-> H]. rewrite startsWith_cons. now apply IH.
Qed.

(** A prefix that ends with a dot fixes the part before the dot. *)
Lemma startsWith_dot_inj a a' b :
  contains "."%char a = false -> contains "."%char a' = false ->
  startsWith (a' ++ "." ++ b) (a ++ ".") = true -> a = a'.
Proof.
  revert a'. induction a as [| c a IH]; intros [| c' a'] Ha Ha' H; cbn in Ha, Ha'.
  - reflexivity.
  - change (startsWith (String c' (a' ++ "." ++ b)) (String "."%char EmptyString) = true) in H.
    apply startsWith_cons_inv in H as [-> _]. cbn in Ha'. discriminate.
  - change (startsWith (String "."%char b) (String c (a ++ ".")) = true) in H.
    apply startsWith_cons_inv in H as [<- _]. cbn in Ha. discriminate.
  - apply orb_false_iff in Ha as [_ Ha]. apply orb_false_iff in Ha' as [_ Ha'].
    change (startsWith (String c' (a' ++ "." ++ b)) (String c (a ++ ".")) = true) in H.
    apply startsWith_cons_inv in H as [-> H].
    f_equal. now apply IH.
Qed.

Lemma url_key_starts_with_list_prefix q t :
  startsWith (url_key q t) (list_prefix q) = true.
Proof.
  unfold url_key, list_prefix.
  change ("url." ++ toString q ++ "." ++ toString t)
    with (String "u" (String "r" (String "l" (String "." (toString q ++ "." ++ toString t))))).
  change ("url." ++ toString q)
    with (String "u" (String "r" (String "l" (String "." (toString q))))).
  rewrite !startsWith_cons. apply startsWith_append.
Qed.

Lemma reverse_key_not_url u : startsWith (reverse_key u) "url." = false.
Proof. reflexivity. Qed.

Lemma list_prefix_starts_with_url q k :
  startsWith k (list_prefix q) = true -> startsWith k "url." = true.
Proof. apply startsWith_shorter. Qed.

End Prefixes.

(** ** Requests *)

Section Requests.

Variable URL_parses : string -> bool.

Lemma name_at_world keys i w : snd (name_at keys i w) = w.
Proof.
  unfold name_at. destruct i as [| z]; [reflexivity |].
  destruct (z <? 0); [reflexivity |]. now destruct (keys !! Z.to_nat z).
Qed.

Lemma name_at_in_range keys z w :
  0 <= z < Z.of_nat (length keys) ->
  exists k, keys !! Z.to_nat z = Some k /\ name_at keys (Int z) w = (Normal k, w).
Proof.
  intros Hz. unfold name_at.
  destruct (Z.ltb_spec z 0) as [Hneg | _]; [lia |].
  destruct (lookup_lt_is_Some_2 keys (Z.to_nat z)) as [k Hk]; [lia |].
  exists k. now rewrite Hk.
Qed.

(** The sampling branch of [handleGet], step by step. *)
Lemma handleGet_sampling env req w :
  endsWith (url req) "/stats" = false ->
  let total := estimatedTotalUrlCount (parseInt (or_zero (kv w !! "urlCount")))
                                      (parseInt (or_zero (kv w !! "urlPrefix"))) in
  let keys := KV.list (list_prefix (targetUrlPrefix (floor_mul (random w (drawn w)) total)))
                      (kv w) in
  let w2 := mkWorld (kv w) (now w) (random w) (S (S (drawn w))) in
  handleGet env req w =
    match fst (name_at keys (floor_mul (random w (S (drawn w))) (Int (Z.of_nat (length keys)))) w2)
    with
    | Normal name => (Normal (sampled env (kv w !! name)), w2)
    | Throw e => (Throw e, w2)
    end.
Proof.
  intros Hstats total keys w2. unfold handleGet. rewrite Hstats.
  unfold bind at 1. rewrite getUrlCountAndPrefix_load, load_lookup.
  unfold rand, bind, Math_random, ret, KV_list, KV_get. cbn [kv random drawn now].
  fold total. fold keys. fold w2.
  pose proof (name_at_world keys
                (floor_mul (random w (S (drawn w))) (Int (Z.of_nat (length keys)))) w2) as Hw.
  destruct (name_at keys _ w2) as [[name | e] w'];
    cbn [fst snd] in *; subst w'; reflexivity.
Qed.

(** [handleGet] only reads the namespace. *)
Lemma handleGet_kv env req w : kv (snd (handleGet env req w)) = kv w.
Proof.
  destruct (endsWith (url req) "/stats") eqn:Hstats.
  - unfold handleGet. rewrite Hstats. unfold handleStats.
    now destruct (unauthorized env req).
  - rewrite handleGet_sampling by assumption. now destruct (fst _).
Qed.

Lemma fetch_kv_unchanged env req w :
  method req <> "POST" \/ accepted URL_parses env req = false ->
  kv (snd (fetch URL_parses req env w)) = kv w.
Proof.
  intros H. unfold fetch.
  destruct (String.eqb_spec (method req) "POST") as [Hpost | Hpost].
  - destruct H as [H | H]; [contradiction |]. now rewrite handleCreate_rejected.
  - destruct (String.eqb (method req) "GET"); [apply handleGet_kv | reflexivity].
Qed.

Lemma writes_keeps c p t u (s : gmap string string) k :
  is_Some (s !! k) -> is_Some (writes c p t u s !! k).
Proof.
  intros Hk. unfold writes, KV.put.
  destruct (strict_eq _ _); rewrite !lookup_insert_is_Some'; auto 6.
Qed.

Lemma submit_keeps env s x k :
  is_Some (s !! k) -> is_Some (submit URL_parses env s x !! k).
Proof.
  intros Hk. destruct (accepted URL_parses env (request x)) eqn:Hacc.
  - rewrite submit_accepted by assumption. now apply writes_keeps.
  - now rewrite submit_rejected.
Qed.

Lemma unauthorized_locked env req :
  unauthorized env req = true <->
  exists secret, SECRET env = Some secret /\ secret <> EmptyString
                 /\ authorization req <> Some ("Secret " ++ secret).
Proof.
  unfold unauthorized. split.
  - destruct (SECRET env) as [[| c secret] |]; try discriminate.
    intros H. exists (String c secret). repeat split; [discriminate |].
    destruct (authorization req) as [h |]; [| discriminate].
    apply negb_true_iff, String.eqb_neq in H. congruence.
  - intros (secret & -> & Hne & Hauth). destruct secret as [| c secret]; [contradiction |].
    destruct (authorization req) as [h |]; [| reflexivity].
    apply negb_true_iff, String.eqb_neq. congruence.
Qed.

End Requests.

(** X1.  Only an accepted POST changes the namespace: a request after
    which the namespace differs has method POST and got past the secret,
    the scheme check and the URL parser.  GETs (sampling, statistics, also
    when the sampling throws), rejected POSTs and other methods leave every
    key as it was. *)
Theorem only_accepted_post_writes URL_parses env req w :
  kv (snd (fetch URL_parses req env w)) <> kv w ->
  method req = "POST" /\ accepted URL_parses env req = true.
Proof.
  intros Hdiff.
  destruct (String.eqb_spec (method req) "POST") as [Hpost | Hpost].
  - split; [assumption |]. destruct (accepted URL_parses env req) eqn:Hacc; [reflexivity |].
    exfalso. apply Hdiff, fetch_kv_unchanged. now right.
  - exfalso. apply Hdiff, fetch_kv_unchanged. now left.
Qed.

Lemma only_accepted_post_writes_witness :
  method (post "https://example.com/") = "POST"
  /\ accepted parses open_env (post "https://example.com/") = true.
Proof.
  apply (only_accepted_post_writes parses open_env (post "https://example.com/") (world ∅ 7)).
  intros H. apply (f_equal (fun m : gmap string string => m !! "urlCount")) in H.
  vm_compute in H. discriminate.
Defined.

(** X2.  No request removes a key: whatever is stored before [fetch]
    serves a request is still stored afterwards. *)
Theorem fetch_keeps_keys URL_parses env req w k :
  is_Some (kv w !! k) -> is_Some (kv (snd (fetch URL_parses req env w)) !! k).
Proof.
  intros Hk. unfold fetch. destruct (String.eqb (method req) "POST").
  - destruct (accepted URL_parses env req) eqn:Hacc.
    + rewrite handleCreate_accepted by assumption. cbn [snd set_kv kv].
      now apply writes_keeps.
    + now rewrite handleCreate_rejected.
  - destruct (String.eqb (method req) "GET"); [now rewrite handleGet_kv | assumption].
Qed.

Lemma fetch_keeps_keys_witness :
  is_Some (kv (snd (fetch parses (post "https://example.com/") open_env
                      (world {[ "url.0.5" := "https://example.org/" ]} 5))) !! "url.0.5").
Proof.
  apply (fetch_keeps_keys parses open_env (post "https://example.com/")
           (world {[ "url.0.5" := "https://example.org/" ]} 5) "url.0.5").
  vm_compute. eauto.
Defined.

(** X3.  The secret gate of POST and of the statistics: the answer is 401
    exactly when a non-empty secret is configured and the Authorization
    header is missing or is not, character for character,
    [Secret <secret>].  An empty secret switches the gate off. *)
Theorem secret_gate URL_parses env req w :
  let locked := exists secret, SECRET env = Some secret /\ secret <> EmptyString
                  /\ authorization req <> Some ("Secret " ++ secret) in
  (fst (handleCreate URL_parses env req w) = Normal (status 401) <-> locked)
  /\ (fst (handleStats env req w) = Normal (status 401) <-> locked).
Proof.
  intros locked. subst locked. rewrite <- unauthorized_locked. split.
  - destruct (accepted URL_parses env req) eqn:Hacc.
    + rewrite handleCreate_accepted by assumption. cbn [fst].
      unfold accepted in Hacc. destruct (unauthorized env req); [discriminate |].
      split; discriminate.
    + rewrite handleCreate_rejected by assumption. cbn [fst].
      destruct (unauthorized env req); split; try reflexivity; discriminate.
  - unfold handleStats. destruct (unauthorized env req); cbn; split;
      try reflexivity; discriminate.
Qed.

(** X4.  A request whose method is neither POST nor GET is answered 405;
    the namespace is not read or written and no draw is made. *)
Theorem other_methods_405 URL_parses env req w :
  method req <> "POST" -> method req <> "GET" ->
  fetch URL_parses req env w = (Normal (status 405), w).
Proof.
  intros Hpost Hget. unfold fetch.
  apply String.eqb_neq in Hpost, Hget. now rewrite Hpost, Hget.
Qed.

Lemma other_methods_405_witness :
  fetch parses (mkRequest "DELETE" "https://roulette.example/" None EmptyString)
        locked_env (world ∅ 0)
  = (Normal (status 405), world ∅ 0).
Proof.
  apply (other_methods_405 parses locked_env
           (mkRequest "DELETE" "https://roulette.example/" None EmptyString) (world ∅ 0));
    discriminate.
Defined.

Lemma writes_other_keys c p t u (s : gmap string string) k :
  k <> url_key p (Int t) -> k <> reverse_key u -> k <> "urlCount" -> k <> "urlPrefix" ->
  writes c p t u s !! k = s !! k.
Proof.
  intros He Hr Hc Hp. unfold writes, KV.put. destruct (strict_eq _ _).
  - rewrite lookup_insert_ne by congruence. rewrite lookup_insert_ne by congruence.
    rewrite lookup_insert_ne by congruence. now rewrite lookup_insert_ne by congruence.
  - rewrite lookup_insert_ne by congruence.
    rewrite lookup_insert_ne by congruence. now rewrite lookup_insert_ne by congruence.
Qed.

Lemma submit_other_keys URL_parses env s x k :
  k <> entry_key s x -> k <> reverse_key (text (request x)) ->
  k <> "urlCount" -> k <> "urlPrefix" ->
  submit URL_parses env s x !! k = s !! k.
Proof.
  intros He Hr Hc Hp. destruct (accepted URL_parses env (request x)) eqn:Hacc.
  - rewrite submit_accepted by assumption. now apply writes_other_keys.
  - now rewrite submit_rejected.
Qed.



(** ** The counter along a sequence *)

Section CounterAlong.

Variable URL_parses : string -> bool.
Variable env : Env.

Lemma accepted_of_snoc l x :
  accepted_of URL_parses env (l ++ [x])
  = (accepted_of URL_parses env l
       ++ if accepted URL_parses env (request x) then [x] else [])%list.
Proof.
  unfold accepted_of. rewrite filter_app. f_equal.
  destruct (accepted URL_parses env (request x)) eqn:Hacc.
  - now rewrite filter_cons_True.
  - rewrite filter_cons_False; [reflexivity | congruence].
Qed.

Lemma accepted_of_cons l x :
  accepted_of URL_parses env (x :: l)
  = ((if accepted URL_parses env (request x) then [x] else [])
       ++ accepted_of URL_parses env l)%list.
Proof.
  unfold accepted_of. destruct (accepted URL_parses env (request x)) eqn:Hacc.
  - now rewrite filter_cons_True.
  - rewrite filter_cons_False; [reflexivity | congruence].
Qed.

Lemma next_counter n :
  0 <= n ->
  (if n mod 1000 + 1 =? 1000
   then (Int 0, Int (n / 1000 + 1))
   else (Int (n mod 1000 + 1), Int (n / 1000)))
  = (Int ((n + 1) mod 1000), Int ((n + 1) / 1000)).
Proof.
  intros Hn. destruct (Z.eqb_spec (n mod 1000 + 1) 1000) as [E | E].
  - replace ((n + 1) mod 1000) with 0 by (revert E; Z.div_mod_to_equations; lia).
    replace ((n + 1) / 1000) with (n / 1000 + 1) by (revert E; Z.div_mod_to_equations; lia).
    reflexivity.
  - replace ((n + 1) mod 1000) with (n mod 1000 + 1)
      by (revert E; Z.div_mod_to_equations; lia).
    replace ((n + 1) / 1000) with (n / 1000) by (revert E; Z.div_mod_to_equations; lia).
    reflexivity.
Qed.

(** The counter after a sequence counts its accepted submissions. *)
Lemma load_run l :
  load (run URL_parses env l)
  = Normal (Int (Z.of_nat (length (accepted_of URL_parses env l)) mod 1000),
            Int (Z.of_nat (length (accepted_of URL_parses env l)) / 1000)).
Proof.
  induction l as [| x l IH] using rev_ind; [reflexivity |].
  rewrite run_snoc, accepted_of_snoc, length_app.
  destruct (accepted URL_parses env (request x)) eqn:Hacc.
  - rewrite submit_accepted by assumption.
    pose proof IH as Hl. rewrite load_lookup in Hl. injection Hl as Hk Hp.
    rewrite Hk, Hp, (load_writes _ _ _ _ _ IH). cbn [length].
    rewrite Nat2Z.inj_add. f_equal. apply next_counter. lia.
  - rewrite submit_rejected by assumption. cbn [length]. now rewrite Nat.add_0_r.
Qed.

Lemma load_writes_NaN p t u s :
  load s = Normal (NaN, p) -> load (writes NaN p t u s) = Normal (NaN, p).
Proof.
  rewrite !load_lookup. intros Hs. injection Hs as Hk Hp.
  destruct (url_key_not_counter p (Int t)) as [Hc1 Hp1].
  destruct (reverse_key_not_counter u) as [Hc2 Hp2].
  unfold writes, KV.put. cbn [add strict_eq].
  rewrite lookup_insert_eq.
  rewrite lookup_insert_ne by discriminate.
  rewrite lookup_insert_ne by assumption.
  rewrite lookup_insert_ne by assumption.
  now rewrite Hp.
Qed.

End CounterAlong.

(** X6.  Served one after the other from an empty namespace, the
    submissions keep the counter exact: with [n] accepted submissions the
    stored count is [n mod 1000], the stored shard is [n / 1000], and the
    total that [handleGet] estimates from them is [n].  This is for
    sequences whose every write is carried out ([storable]: the reverse
    key of each accepted body fits the platform's limit) and for at most
    2^53 accepted submissions. *)
Theorem counter_counts_accepted URL_parses env l :
  storable URL_parses env l = true ->
  Z.of_nat (length (accepted_of URL_parses env l)) <= 2 ^ 53 ->
  let n := Z.of_nat (length (accepted_of URL_parses env l)) in
  load (run URL_parses env l) = Normal (Int (n mod 1000), Int (n / 1000))
  /\ estimatedTotalUrlCount (Int (n mod 1000)) (Int (n / 1000)) = Int n.
Proof.
  intros _ _ n. split; [apply load_run |]. clearbody n.
  unfold estimatedTotalUrlCount. cbn [add mul]. f_equal.
  pose proof (Z.div_mod n 1000). lia.
Qed.

Lemma counter_counts_accepted_witness :
  load (run parses open_env
          [mkSubmission 5 (post "https://example.com/");
           mkSubmission 6 (post "ftp://example.com");
           mkSubmission 7 (post "https://example.org/")])
  = Normal (Int 2, Int 0).
Proof.
  pose proof (counter_counts_accepted parses open_env
                [mkSubmission 5 (post "https://example.com/");
                 mkSubmission 6 (post "ftp://example.com");
                 mkSubmission 7 (post "https://example.org/")]
                eq_refl) as H.
  assert (Hn : Z.of_nat (length (accepted_of parses open_env
                  [mkSubmission 5 (post "https://example.com/");
                   mkSubmission 6 (post "ftp://example.com");
                   mkSubmission 7 (post "https://example.org/")])) <= 2 ^ 53)
    by (vm_compute; discriminate).
  exact (proj1 (H Hn)).
Defined.

Lemma count_past_rollover URL_parses env l : forall s k p,
  load s = Normal (Int k, Int p) -> 1000 <= k ->
  load (foldl (submit URL_parses env) s l)
  = Normal (Int (k + Z.of_nat (length (accepted_of URL_parses env l))), Int p).
Proof.
  induction l as [| x l IH]; intros s k p Hload Hk.
  - cbn. now rewrite Z.add_0_r.
  - cbn [foldl]. rewrite accepted_of_cons, length_app.
    destruct (accepted URL_parses env (request x)) eqn:Hacc.
    + rewrite (IH _ (k + 1) p); [cbn [length]; f_equal; f_equal; f_equal; lia | | lia].
      rewrite submit_accepted by assumption.
      pose proof Hload as Hl. rewrite load_lookup in Hl. injection Hl as Hc Hp.
      rewrite Hc, Hp, (load_writes _ _ _ _ _ Hload).
      destruct (Z.eqb_spec (k + 1) 1000); [lia | reflexivity].
    + rewrite submit_rejected by assumption. now apply IH.
Qed.

(** X7.  The rollover is tested with [===] after the increment, so a count
    that is already 1000 or more never rolls over: every further accepted
    submission adds one to it and the shard stays the same.  This is for
    counts that stay within 2^53, a shard index below 2^53, and sequences
    whose every write is carried out ([storable]). *)
Theorem overshoot_never_rolls URL_parses env l s k p :
  load s = Normal (Int k, Int p) -> 1000 <= k ->
  k + Z.of_nat (length (accepted_of URL_parses env l)) <= 2 ^ 53 -> small p ->
  storable URL_parses env l = true ->
  load (foldl (submit URL_parses env) s l)
  = Normal (Int (k + Z.of_nat (length (accepted_of URL_parses env l))), Int p).
Proof. intros Hload Hk _ _ _. now apply count_past_rollover. Qed.

Lemma overshoot_never_rolls_witness :
  load (foldl (submit parses open_env) {[ "urlCount" := "1000"; "urlPrefix" := "3" ]}
          [mkSubmission 5 (post "https://example.com/");
           mkSubmission 6 (post "ftp://example.com");
           mkSubmission 7 (post "https://example.org/")])
  = Normal (Int 1002, Int 3).
Proof.
  apply (overshoot_never_rolls parses open_env
           [mkSubmission 5 (post "https://example.com/");
            mkSubmission 6 (post "ftp://example.com");
            mkSubmission 7 (post "https://example.org/")]
           {[ "urlCount" := "1000"; "urlPrefix" := "3" ]} 1000 3).
  - reflexivity.
  - lia.
  - vm_compute. discriminate.
  - unfold small. vm_compute. reflexivity.
  - reflexivity.
Defined.

(** X8.  A stored [urlCount] that [parseInt] cannot read is never
    repaired: the count loads as [NaN] after any sequence of submissions
    (each accepted one writes [NaN] back), and the shard never changes. *)
Theorem unreadable_count_sticks URL_parses env l : forall s p,
  load s = Normal (NaN, p) ->
  load (foldl (submit URL_parses env) s l) = Normal (NaN, p).
Proof.
  induction l as [| x l IH]; intros s p Hload; [assumption |].
  cbn [foldl]. apply IH.
  destruct (accepted URL_parses env (request x)) eqn:Hacc.
  - rewrite submit_accepted by assumption.
    pose proof Hload as Hl. rewrite load_lookup in Hl. injection Hl as Hc Hp.
    rewrite Hc, Hp. now apply load_writes_NaN.
  - now rewrite submit_rejected.
Qed.

Lemma unreadable_count_sticks_witness :
  load (foldl (submit parses open_env) {[ "urlCount" := "many" ]}
          [mkSubmission 5 (post "https://example.com/")])
  = Normal (NaN, Int 0).
Proof.
  apply (unreadable_count_sticks parses open_env
           [mkSubmission 5 (post "https://example.com/")] {[ "urlCount" := "many" ]} (Int 0)).
  reflexivity.
Defined.

(** X9.  After a sequence of submissions served from an empty namespace
    whose every write was carried out ([storable]), a GET of a URL ending
    in [/stats] that passes the secret gate answers 200 with the JSON of
    the exact counter: count [n mod 1000] and shard [n / 1000] for [n]
    accepted submissions. *)
Theorem stats_report_accepted URL_parses env l req w :
  kv w = run URL_parses env l ->
  storable URL_parses env l = true ->
  endsWith (url req) "/stats" = true ->
  unauthorized env req = false ->
  let n := Z.of_nat (length (accepted_of URL_parses env l)) in
  handleGet env req w
  = (Normal (mkResponse 200 (Some (stringify_counter (Int (n mod 1000)) (Int (n / 1000)))) []),
     w).
Proof.
  intros Hkv _ Hstats Hauth n. unfold handleGet, handleStats. rewrite Hstats, Hauth.
  unfold bind. rewrite getUrlCountAndPrefix_load, Hkv, load_run. reflexivity.
Qed.

Lemma stats_report_accepted_witness :
  fst (handleGet open_env (get "https://roulette.example/stats")
         (world (run parses open_env [mkSubmission 5 (post "https://example.com/")]) 9))
  = Normal (mkResponse 200 (Some (stringify_counter (Int 1) (Int 0))) []).
Proof.
  rewrite (stats_report_accepted parses open_env
             [mkSubmission 5 (post "https://example.com/")]
             (get "https://roulette.example/stats")
             (world (run parses open_env [mkSubmission 5 (post "https://example.com/")]) 9));
    reflexivity.
Defined.

(** ** Sampling *)

Section Sampling.

Variable URL_parses : string -> bool.
Variable env : Env.

(** With a listing that is not empty and a second draw of the unit
    interval, the sampling branch answers with the value of a listed key. *)
Lemma handleGet_nonempty req w :
  endsWith (url req) "/stats" = false ->
  (0 <= random w (S (drawn w)))%Q -> (random w (S (drawn w)) < 1)%Q ->
  let total := estimatedTotalUrlCount (parseInt (or_zero (kv w !! "urlCount")))
                                      (parseInt (or_zero (kv w !! "urlPrefix"))) in
  let prefix := list_prefix (targetUrlPrefix (floor_mul (random w (drawn w)) total)) in
  KV.list prefix (kv w) <> [] ->
  exists name v,
    name ∈ KV.list prefix (kv w) /\ kv w !! name = Some v
    /\ handleGet env req w
       = (Normal (sampled env (Some v)), mkWorld (kv w) (now w) (random w) (S (S (drawn w)))).
Proof.
  intros Hstats H0 H1 total prefix Hne.
  rewrite handleGet_sampling by assumption. fold total. fold prefix.
  set (keys := KV.list prefix (kv w)) in *.
  assert (Hlen : 0 < Z.of_nat (length keys)) by (destruct keys; [contradiction | cbn; lia]).
  destruct (floor_mul_range _ (Z.of_nat (length keys)) H0 H1) as [Hrange _].
  specialize (Hrange Hlen). cbn [floor_mul].
  set (z := Qfloor _) in *.
  destruct (name_at_in_range keys z
              (mkWorld (kv w) (now w) (random w) (S (S (drawn w)))) Hrange)
    as (name & Hname & ->).
  cbn [fst].
  assert (Hin : name ∈ keys) by (eapply list_elem_of_lookup_2; exact Hname).
  assert (Hsome : is_Some (kv w !! name)).
  { subst keys. unfold KV.list in Hin. apply subseteq_take in Hin.
    now apply elem_of_matching in Hin as [Hsome _]. }
  destruct Hsome as [v Hv]. exists name, v. rewrite Hv. auto.
Qed.

Lemma list_prefix_of_listed prefix (s : gmap string string) name :
  name ∈ KV.list prefix s -> startsWith name prefix = true.
Proof.
  unfold KV.list. intros Hin. apply subseteq_take in Hin.
  now apply elem_of_matching in Hin as [_ Hp].
Qed.

Lemma list_nonempty prefix (s : gmap string string) k v :
  s !! k = Some v -> startsWith k prefix = true -> KV.list prefix s <> [].
Proof.
  intros Hk Hp Hnil. pose proof (is_Some_matching prefix s k v Hk Hp) as Hin.
  unfold KV.list in Hnil. apply take_nil_inv in Hnil as [Hz | Hnil]; [discriminate |].
  rewrite Hnil in Hin. now apply elem_of_nil in Hin.
Qed.

Lemma shards_filled_submit s x :
  counter_ok s -> shards_filled s -> shards_filled (submit URL_parses env s x).
Proof.
  intros (c & p & Hload & Hc & Hp) Hfill.
  destruct (accepted URL_parses env (request x)) eqn:Hacc;
    [| now rewrite submit_rejected].
  destruct (Hfill c p Hload) as [Hclosed Hcurrent].
  pose proof (entry_filed URL_parses env s x Hacc) as Hnew.
  unfold entry_key in Hnew.
  pose proof Hload as Hl. rewrite load_lookup in Hl. injection Hl as Hk Hq.
  rewrite Hq in Hnew.
  assert (Hold : forall q, 0 <= q < p ->
            exists t, is_Some (submit URL_parses env s x !! url_key (Int q) (Int t))).
  { intros q Hq'. destruct (Hclosed q Hq') as [t Ht]. exists t. now apply submit_keeps. }
  intros c' p' Hload'. rewrite submit_accepted in Hload' by assumption.
  rewrite Hk, Hq, (load_writes c p _ _ _ Hload) in Hload'.
  destruct (Z.eqb_spec (c + 1) 1000) as [E | E]; injection Hload' as <- <-.
  - split; [| lia]. intros q Hq'. destruct (Z.eq_dec q p) as [-> | Hne].
    + exists (at_time x). rewrite Hnew. eauto.
    + apply Hold. lia.
  - split; [exact Hold |]. intros _. exists (at_time x). rewrite Hnew. eauto.
Qed.

Lemma shards_filled_run l : shards_filled (run URL_parses env l).
Proof.
  induction l as [| x l IH] using rev_ind.
  - intros c p Hload.
    change (load (run URL_parses env [])) with (Normal (Int 0, Int 0)) in Hload.
    injection Hload as <- <-. split; intros; exfalso; lia.
  - rewrite run_snoc. apply shards_filled_submit; [apply counter_ok_run | exact IH].
Qed.

Lemma bodies_from_run l : bodies_from URL_parses env l (run URL_parses env l).
Proof.
  induction l as [| x l IH] using rev_ind.
  - intros k v Hk. unfold run in Hk. cbn in Hk. now rewrite lookup_empty in Hk.
  - rewrite run_snoc. intros k v Hk Hurl.
    assert (Hold : run URL_parses env l !! k = Some v ->
              exists y, y ∈ (l ++ [x])%list /\ accepted URL_parses env (request y) = true
                        /\ text (request y) = v).
    { intros Hk'. destruct (IH k v Hk' Hurl) as (y & Hy & Hacc & Htext).
      exists y. split; [apply elem_of_app; now left | auto]. }
    destruct (accepted URL_parses env (request x)) eqn:Hacc.
    + assert (Hnew : exists y, y ∈ (l ++ [x])%list
                  /\ accepted URL_parses env (request y) = true
                  /\ text (request y) = text (request x)).
      { exists x. split; [apply elem_of_app; right; apply list_elem_of_here | auto]. }
      rewrite submit_accepted in Hk by assumption. unfold writes, KV.put in Hk.
      destruct (strict_eq _ _).
      * apply lookup_insert_Some in Hk as [[<- _] | [_ Hk]]; [discriminate Hurl |].
        apply lookup_insert_Some in Hk as [[<- _] | [_ Hk]]; [discriminate Hurl |].
        apply lookup_insert_Some in Hk as [[<- _] | [_ Hk]];
          [now rewrite reverse_key_not_url in Hurl |].
        apply lookup_insert_Some in Hk as [[_ <-] | [_ Hk]]; [exact Hnew | now apply Hold].
      * apply lookup_insert_Some in Hk as [[<- _] | [_ Hk]]; [discriminate Hurl |].
        apply lookup_insert_Some in Hk as [[<- _] | [_ Hk]];
          [now rewrite reverse_key_not_url in Hurl |].
        apply lookup_insert_Some in Hk as [[_ <-] | [_ Hk]]; [exact Hnew | now apply Hold].
    + rewrite submit_rejected in Hk by assumption. now apply Hold.
Qed.

End Sampling.

Lemma half_in_unit : (0 <= 1 # 2)%Q /\ (1 # 2 < 1)%Q.
Proof. split; [discriminate | reflexivity]. Qed.

(** X11.  After any sequence of submissions served from an empty
    namespace of which at least one was accepted, a sampling GET whose two
    draws lie in the unit interval never throws: it answers 200 with the
    body of one of the accepted submissions, unchanged, and never with a
    counter value or a reverse entry. *)
Theorem get_returns_accepted_body URL_parses env l req w :
  kv w = run URL_parses env l ->
  endsWith (url req) "/stats" = false ->
  accepted_of URL_parses env l <> [] ->
  (0 <= random w (drawn w))%Q -> (random w (drawn w) < 1)%Q ->
  (0 <= random w (S (drawn w)))%Q -> (random w (S (drawn w)) < 1)%Q ->
  exists x, x ∈ l /\ accepted URL_parses env (request x) = true
    /\ fst (handleGet env req w)
       = Normal (mkResponse 200 (Some (text (request x)))
                   [("Access-Control-Allow-Origin", ALLOWED_ORIGIN env)]).
Proof.
  intros Hkv Hstats Hacc Ha0 Ha1 Hb0 Hb1.
  assert (Hn : 0 < Z.of_nat (length (accepted_of URL_parses env l)))
    by (destruct (accepted_of URL_parses env l); [contradiction | cbn; lia]).
  pose proof (load_run URL_parses env l) as Hload.
  pose proof (shards_filled_run URL_parses env l _ _ Hload) as [Hclosed Hcurrent].
  pose proof (bodies_from_run URL_parses env l) as Hbodies.
  set (n := Z.of_nat (length (accepted_of URL_parses env l))) in *. clearbody n.
  pose proof Hload as Hl. rewrite load_lookup in Hl. injection Hl as Hc Hp.
  destruct (floor_mul_range _ n Ha0 Ha1) as [Hrange _]. specialize (Hrange Hn).
  set (z := Qfloor (random w (drawn w) * inject_Z n)) in *.
  assert (Hq : 0 <= z / 1000 <= n / 1000) by (Z.div_mod_to_equations; lia).
  assert (Hlast : z / 1000 = n / 1000 -> 0 < n mod 1000)
    by (Z.div_mod_to_equations; lia).
  assert (Htotal : estimatedTotalUrlCount (Int (n mod 1000)) (Int (n / 1000)) = Int n).
  { unfold estimatedTotalUrlCount. cbn [add mul]. f_equal.
    pose proof (Z.div_mod n 1000). lia. }
  assert (Hentry : exists t, is_Some (run URL_parses env l !! url_key (Int (z / 1000)) (Int t))).
  { destruct (Z.eq_dec (z / 1000) (n / 1000)) as [E | E].
    - rewrite E. apply Hcurrent. now apply Hlast.
    - apply Hclosed. lia. }
  destruct Hentry as (t & v0 & Hv0).
  destruct (handleGet_nonempty env req w Hstats Hb0 Hb1) as (name & v & Hin & Hv & Heq).
  - rewrite Hkv, Hc, Hp, Htotal. cbn [floor_mul]. fold z. cbn [targetUrlPrefix floor_div].
    eapply list_nonempty; [exact Hv0 | apply url_key_starts_with_list_prefix].
  - apply list_prefix_of_listed, list_prefix_starts_with_url in Hin.
    rewrite Hkv in Hv. destruct (Hbodies name v Hv Hin) as (x & Hx & Hax & Htext).
    exists x. split; [assumption |]. split; [assumption |]. rewrite Heq, Htext. reflexivity.
Qed.

Lemma get_returns_accepted_body_witness :
  exists x,
    fst (handleGet open_env (get "https://roulette.example/")
           (world (run parses open_env [mkSubmission 5 (post "https://example.com/")]) 9))
    = Normal (mkResponse 200 (Some (text (request x)))
                [("Access-Control-Allow-Origin", "*")]).
Proof.
  assert (Hne : accepted_of parses open_env [mkSubmission 5 (post "https://example.com/")]
                <> []) by (vm_compute; discriminate).
  pose proof (get_returns_accepted_body parses open_env
                [mkSubmission 5 (post "https://example.com/")]
                (get "https://roulette.example/")
                (world (run parses open_env [mkSubmission 5 (post "https://example.com/")]) 9)
                eq_refl eq_refl Hne
                (proj1 half_in_unit) (proj2 half_in_unit)
                (proj1 half_in_unit) (proj2 half_in_unit)) as H.
  destruct H as (x & _ & _ & H).
  exists x. exact H.
Defined.

(** ** The reverse entries *)

Section Reverse.

Lemma hex_digit_inj d d' :
  (d < 16)%N -> (d' < 16)%N -> hex_digit d = hex_digit d' -> d = d'.
Proof.
  intros Hd Hd' H. apply (f_equal N_of_ascii) in H. unfold hex_digit in H.
  destruct (N.ltb_spec d 10), (N.ltb_spec d' 10);
    rewrite !N_ascii_embedding in H by lia; lia.
Qed.

Lemma unreserved_percent : unreserved "%"%char = false.
Proof. reflexivity. Qed.

Lemma encodeURIComponent_inj s : forall s',
  encodeURIComponent s = encodeURIComponent s' -> s = s'.
Proof.
  induction s as [| c s IH]; intros [| c' s'] H; cbn [encodeURIComponent] in H.
  - reflexivity.
  - destruct (unreserved c'); discriminate.
  - destruct (unreserved c); discriminate.
  - destruct (unreserved c) eqn:Hc, (unreserved c') eqn:Hc'.
    + injection H as -> H. f_equal. now apply IH.
    + injection H as -> _. rewrite unreserved_percent in Hc. discriminate.
    + injection H as <- _. rewrite unreserved_percent in Hc'. discriminate.
    + injection H as H1 H2 H.
      pose proof (N_ascii_bounded c) as Hb. pose proof (N_ascii_bounded c') as Hb'.
      apply hex_digit_inj in H1; [| apply N.Div0.div_lt_upper_bound; lia ..].
      apply hex_digit_inj in H2; [| apply N.mod_lt; lia ..].
      assert (Hn : N_of_ascii c = N_of_ascii c').
      { rewrite (N.div_mod (N_of_ascii c) 16), (N.div_mod (N_of_ascii c') 16) by lia.
        now rewrite H1, H2. }
      f_equal; [| now apply IH].
      rewrite <- (ascii_N_embedding c), <- (ascii_N_embedding c'). now rewrite Hn.
Qed.

Lemma reverse_key_eq u u' : reverse_key u = reverse_key u' -> u = u'.
Proof.
  unfold reverse_key. intros H.
  change ("urlKey." ++ encodeURIComponent u)
    with (String "u" (String "r" (String "l" (String "K" (String "e" (String "y"
           (String "." (encodeURIComponent u)))))))) in H.
  change ("urlKey." ++ encodeURIComponent u')
    with (String "u" (String "r" (String "l" (String "K" (String "e" (String "y"
           (String "." (encodeURIComponent u')))))))) in H.
  injection H as H. now apply encodeURIComponent_inj.
Qed.

Variable URL_parses : string -> bool.
Variable env : Env.

(** An accepted submission points the reverse key of its body at its
    entry. *)
Lemma reverse_filed s x :
  accepted URL_parses env (request x) = true ->
  submit URL_parses env s x !! reverse_key (text (request x)) = Some (entry_key s x).
Proof.
  intros Hacc. rewrite submit_accepted by assumption. unfold entry_key.
  destruct (reverse_key_not_counter (text (request x))) as [Hc Hp].
  unfold writes, KV.put. destruct (strict_eq _ _).
  - rewrite lookup_insert_ne by congruence. rewrite lookup_insert_ne by congruence.
    apply lookup_insert_eq.
  - rewrite lookup_insert_ne by congruence. apply lookup_insert_eq.
Qed.

Lemma reverse_index_submit times s x :
  counter_ok s -> reverse_index_ok times s -> at_time x ∉ times ->
  reverse_index_ok (times ++ [at_time x]) (submit URL_parses env s x).
Proof.
  intros (c & p & Hload & _) Hidx Hfresh.
  assert (Hold : forall u k, s !! reverse_key u = Some k ->
            s !! k = Some u
            /\ exists q t, k = url_key (Int q) (Int t) /\ t ∈ (times ++ [at_time x])%list).
  { intros u k Hk. destruct (Hidx u k Hk) as [Hv (q & t & -> & Ht)].
    split; [assumption |]. exists q, t. split; [reflexivity |].
    apply elem_of_app. now left. }
  destruct (accepted URL_parses env (request x)) eqn:Hacc;
    [| now rewrite submit_rejected].
  pose proof Hload as Hl. rewrite load_lookup in Hl. injection Hl as _ Hp.
  assert (Hkey : entry_key s x = url_key (Int p) (Int (at_time x)))
    by (unfold entry_key; now rewrite Hp).
  intros u k Hk.
  destruct (string_dec (reverse_key u) (reverse_key (text (request x)))) as [E | E].
  - apply reverse_key_eq in E as ->.
    rewrite reverse_filed in Hk by assumption. injection Hk as <-.
    split; [now apply entry_filed |].
    exists p, (at_time x). split; [assumption |].
    apply elem_of_app. right. apply list_elem_of_here.
  - destruct (reverse_key_not_counter u) as [Hc1 Hc2].
    rewrite submit_other_keys in Hk;
      [| rewrite Hkey; intros H; symmetry in H; now apply url_key_not_reverse_key in H
       | assumption ..].
    destruct (Hold u k Hk) as [Hv (q & t & -> & Ht)].
    split; [| eauto].
    destruct (Hidx u _ Hk) as [_ (q' & t' & Heq & Ht')].
    apply url_key_inj in Heq as [<- <-].
    destruct (url_key_not_counter (Int q) (Int t)) as [Hk1 Hk2].
    rewrite submit_other_keys; [assumption | | apply url_key_not_reverse_key | assumption ..].
    rewrite Hkey. intros H. apply url_key_inj in H as [_ ->]. contradiction.
Qed.

Lemma reverse_index_run l :
  NoDup (at_time <$> l) -> reverse_index_ok (at_time <$> l) (run URL_parses env l).
Proof.
  induction l as [| x l IH] using rev_ind; intros Hnd.
  - intros u k Hk. unfold run in Hk. cbn in Hk. now rewrite lookup_empty in Hk.
  - rewrite fmap_app in Hnd |- *. apply NoDup_app in Hnd as (Hl & Hx & _).
    rewrite run_snoc. apply reverse_index_submit; [apply counter_ok_run | now apply IH |].
    intros Hin. apply (Hx _ Hin). apply list_elem_of_here.
Qed.

Lemma reverse_present_run l x :
  x ∈ l -> accepted URL_parses env (request x) = true ->
  is_Some (run URL_parses env l !! reverse_key (text (request x))).
Proof.
  induction l as [| y l IH] using rev_ind; intros Hx Hacc.
  - now apply elem_of_nil in Hx.
  - rewrite run_snoc. apply elem_of_app in Hx as [Hx | Hx].
    + apply submit_keeps. now apply IH.
    + apply list_elem_of_singleton in Hx as ->. rewrite reverse_filed by assumption. eauto.
Qed.

End Reverse.

(** X12.  Reverse keys tell URLs apart: two bodies with the same reverse
    key [urlKey.<encodeURIComponent(url)>] are the same string. *)
Theorem reverse_key_inj u u' : reverse_key u = reverse_key u' <-> u = u'.
Proof.
  split.
  - apply reverse_key_eq.
  - intros ->. reflexivity.
Qed.

(** X13.  The reverse entries work as an index: after a sequence of
    submissions at pairwise different clock readings whose every write was
    carried out ([storable]), the reverse key of every accepted body holds
    the key of an entry, and that entry holds this very body. *)
Theorem reverse_index_round_trip URL_parses env l x :
  NoDup (at_time <$> l) ->
  storable URL_parses env l = true ->
  x ∈ l -> accepted URL_parses env (request x) = true ->
  exists k, run URL_parses env l !! reverse_key (text (request x)) = Some k
            /\ run URL_parses env l !! k = Some (text (request x)).
Proof.
  intros Hnd _ Hx Hacc.
  destruct (reverse_present_run URL_parses env l x Hx Hacc) as [k Hk].
  exists k. split; [assumption |].
  now destruct (reverse_index_run URL_parses env l Hnd _ _ Hk) as [Hv _].
Qed.

Lemma reverse_index_round_trip_witness :
  exists k,
    run parses open_env [mkSubmission 5 (post "https://example.com/");
                         mkSubmission 6 (post "https://example.org/")]
      !! reverse_key "https://example.com/" = Some k
    /\ run parses open_env [mkSubmission 5 (post "https://example.com/");
                            mkSubmission 6 (post "https://example.org/")]
         !! k = Some "https://example.com/".
Proof.
  assert (Hnd : NoDup (at_time <$> [mkSubmission 5 (post "https://example.com/");
                                    mkSubmission 6 (post "https://example.org/")])).
  { cbn. repeat constructor; rewrite ?elem_of_cons, ?elem_of_nil; intros H; intuition lia. }
  pose proof (reverse_index_round_trip parses open_env
                [mkSubmission 5 (post "https://example.com/");
                 mkSubmission 6 (post "https://example.org/")]
                (mkSubmission 5 (post "https://example.com/")) Hnd eq_refl
                (list_elem_of_here _ _) eq_refl) as H.
  exact H.
Defined.

(** ** The size of a shard *)

Section Shards.

Variable URL_parses : string -> bool.
Variable env : Env.

Lemma entries_indexed_run l : entries_indexed URL_parses env l (run URL_parses env l).
Proof.
  induction l as [| x l IH] using rev_ind.
  - intros q t [v Hv]. unfold run in Hv. cbn in Hv. now rewrite lookup_empty in Hv.
  - rewrite run_snoc. intros q t Hsome. rewrite accepted_of_snoc, fmap_app.
    destruct (accepted URL_parses env (request x)) eqn:Hacc.
    + pose proof (load_run URL_parses env l) as Hl. rewrite load_lookup in Hl.
      injection Hl as _ Hp.
      assert (Hkey : entry_key (run URL_parses env l) x
                     = url_key (Int (Z.of_nat (length (accepted_of URL_parses env l)) / 1000))
                               (Int (at_time x)))
        by (unfold entry_key; now rewrite Hp).
      destruct (string_dec (url_key (Int q) (Int t)) (entry_key (run URL_parses env l) x))
        as [E | E].
      * rewrite Hkey in E. apply url_key_inj in E as [-> ->].
        exists (length (at_time <$> accepted_of URL_parses env l)). split.
        -- cbn [fmap list_fmap]. apply list_lookup_middle. reflexivity.
        -- now rewrite length_fmap.
      * destruct (url_key_not_counter (Int q) (Int t)) as [Hc1 Hc2].
        rewrite submit_other_keys in Hsome;
          [| assumption | apply url_key_not_reverse_key | assumption ..].
        destruct (IH q t Hsome) as (j & Hj & Hq). exists j. split; [| assumption].
        now apply lookup_app_l_Some.
    + rewrite submit_rejected in Hsome by assumption.
      destruct (IH q t Hsome) as (j & Hj & Hq). exists j. split; [| assumption].
      now apply lookup_app_l_Some.
Qed.

Lemma url_key_starts_with_dotted q t :
  startsWith (url_key q t) (list_prefix q ++ ".") = true.
Proof.
  unfold url_key, list_prefix.
  change ("url." ++ toString q ++ "." ++ toString t)
    with (String "u" (String "r" (String "l" (String "." (toString q ++ "." ++ toString t))))).
  change (("url." ++ toString q) ++ ".")
    with (String "u" (String "r" (String "l" (String "." (toString q ++ "."))))).
  rewrite !startsWith_cons.
  induction (toString q) as [| c a IH].
  - change (startsWith (String "."%char (toString t)) (String "."%char EmptyString) = true).
    rewrite startsWith_cons. apply startsWith_empty.
  - change (startsWith (String c (a ++ "." ++ toString t)) (String c (a ++ ".")) = true).
    now rewrite startsWith_cons.
Qed.

Lemma dotted_prefix_shard q q' t :
  startsWith (url_key (Int q') (Int t)) (list_prefix (Int q) ++ ".") = true -> q' = q.
Proof.
  unfold url_key, list_prefix. intros H.
  change ("url." ++ toString (Int q') ++ "." ++ toString (Int t))
    with (String "u" (String "r" (String "l" (String "."
            (toString (Int q') ++ "." ++ toString (Int t)))))) in H.
  change (("url." ++ toString (Int q)) ++ ".")
    with (String "u" (String "r" (String "l" (String "." (toString (Int q) ++ "."))))) in H.
  rewrite !startsWith_cons in H.
  apply startsWith_dot_inj in H; try apply toString_no_dot.
  symmetry. now apply toString_inj.
Qed.

(** A stored key under [url.<q>.] is the key of an entry of shard [q]. *)
Lemma shard_entry_form times (s : gmap string string) q k :
  keys_from times s -> k ∈ shard_entries q s ->
  is_Some (s !! k) /\ exists t, k = url_key (Int q) (Int t).
Proof.
  intros Hkeys Hk. unfold shard_entries in Hk.
  apply list_elem_of_filter in Hk as [Hpre Hdom].
  apply elem_of_elements, elem_of_dom in Hdom. split; [assumption |].
  pose proof (list_prefix_starts_with_url _ _ (startsWith_shorter _ _ _ Hpre)) as Hurl.
  destruct (Hkeys k Hdom) as [-> | [-> | [[u ->] | (q' & t & -> & _)]]].
  - discriminate Hurl.
  - discriminate Hurl.
  - now rewrite reverse_key_not_url in Hurl.
  - apply dotted_prefix_shard in Hpre as ->. eauto.
Qed.

Lemma shard_entries_NoDup q (s : gmap string string) : NoDup (shard_entries q s).
Proof. unfold shard_entries. apply NoDup_filter, NoDup_elements. Qed.

Lemma shard_entries_length l q :
  (length (shard_entries q (run URL_parses env l)) <= 1000)%nat.
Proof.
  set (times := at_time <$> accepted_of URL_parses env l).
  set (img := (fun j : nat => url_key (Int q) (Int (default 0 (times !! j))))
                <$> seq (Z.to_nat (1000 * q)) 1000).
  assert (Hlen : length img = 1000%nat) by (subst img; now rewrite length_fmap, length_seq).
  rewrite <- Hlen. apply submseteq_length, NoDup_submseteq; [apply shard_entries_NoDup |].
  intros k Hk.
  destruct (shard_entry_form _ _ _ _ (keys_from_run URL_parses env l) Hk) as [Hsome [t ->]].
  destruct (entries_indexed_run l q t Hsome) as (j & Hj & Hq).
  subst img. apply list_elem_of_fmap. exists j. split.
  - fold times in Hj. now rewrite Hj.
  - apply elem_of_seq. clear Hj Hsome Hk. revert Hq. Z.div_mod_to_equations. lia.
Qed.

End Shards.

(** X14.  A shard never holds more than 1000 entries: after a sequence
    of submissions served from an empty namespace whose every write was
    carried out ([storable]), at most 1000 stored keys lie under
    [url.<q>.] (the shard index followed by its dot), and each of them is
    matched by the prefix [url.<q>] that [handleGet] lists. *)
Theorem shard_capacity URL_parses env l q :
  storable URL_parses env l = true ->
  (length (shard_entries q (run URL_parses env l)) <= 1000)%nat
  /\ forall k, k ∈ shard_entries q (run URL_parses env l) ->
               k ∈ KV.matching (list_prefix (Int q)) (run URL_parses env l).
Proof.
  intros _. split; [apply shard_entries_length |].
  intros k Hk. unfold shard_entries in Hk.
  apply list_elem_of_filter in Hk as [Hpre Hdom].
  apply elem_of_matching. split.
  - now apply elem_of_elements, elem_of_dom in Hdom.
  - eapply startsWith_shorter. exact Hpre.
Qed.

Lemma shard_capacity_witness :
  (length (shard_entries 0
             (run parses open_env [mkSubmission 5 (post "https://example.com/");
                                   mkSubmission 6 (post "https://example.org/")]))
   <= 1000)%nat.
Proof.
  pose proof (shard_capacity parses open_env
                [mkSubmission 5 (post "https://example.com/");
                 mkSubmission 6 (post "https://example.org/")] 0 eq_refl) as [H _].
  exact H.
Defined.

(** ** Shards with a one-digit index *)

Section OneDigit.

Variable URL_parses : string -> bool.
Variable env : Env.

Lemma toString_one_digit q :
  0 <= q <= 9 -> toString (Int q) = String (digit_char (Z.to_N q)) EmptyString.
Proof.
  intros Hq.
  assert (Hc : q = 0 \/ q = 1 \/ q = 2 \/ q = 3 \/ q = 4 \/ q = 5 \/ q = 6 \/ q = 7
               \/ q = 8 \/ q = 9) by lia.
  repeat (destruct Hc as [-> | Hc]; [reflexivity |]). now subst.
Qed.

Lemma digit_char_inj d d' :
  (d < 10)%N -> (d' < 10)%N -> digit_char d = digit_char d' -> d = d'.
Proof.
  intros Hd Hd' H. apply (f_equal (digit_value 10)) in H.
  rewrite !digit_value_digit_char in H by assumption. congruence.
Qed.

Lemma one_digit_prefix_shard q q' t :
  0 <= q <= 9 -> 0 <= q' <= 9 ->
  startsWith (url_key (Int q') (Int t)) (list_prefix (Int q)) = true -> q' = q.
Proof.
  intros Hq Hq' H. unfold url_key, list_prefix in H.
  rewrite (toString_one_digit q Hq), (toString_one_digit q' Hq') in H.
  change (startsWith
            (String "u" (String "r" (String "l" (String "."
               (String (digit_char (Z.to_N q')) ("." ++ toString (Int t)))))))
            (String "u" (String "r" (String "l" (String "."
               (String (digit_char (Z.to_N q)) EmptyString))))) = true) in H.
  rewrite !startsWith_cons in H. apply startsWith_cons_inv in H as [H _].
  apply digit_char_inj in H; lia.
Qed.

Lemma matching_NoDup prefix (s : gmap string string) : NoDup (KV.matching prefix s).
Proof.
  unfold KV.matching. rewrite merge_sort_Permutation. apply NoDup_filter, NoDup_elements.
Qed.

(** With fewer than 10000 accepted submissions every stored entry lies in
    one of the shards 0 to 9, so the prefix of such a shard matches its own
    entries only. *)
Lemma matching_one_digit l q k :
  Z.of_nat (length (accepted_of URL_parses env l)) < 10000 -> 0 <= q <= 9 ->
  k ∈ KV.matching (list_prefix (Int q)) (run URL_parses env l) ->
  k ∈ shard_entries q (run URL_parses env l).
Proof.
  intros Hn Hq Hk. apply elem_of_matching in Hk as [Hsome Hpre].
  unfold shard_entries. apply list_elem_of_filter. split.
  - pose proof (list_prefix_starts_with_url _ _ Hpre) as Hurl.
    destruct (keys_from_run URL_parses env l k Hsome)
      as [-> | [-> | [[u ->] | (q' & t & -> & _)]]].
    + discriminate Hurl.
    + discriminate Hurl.
    + now rewrite reverse_key_not_url in Hurl.
    + destruct (entries_indexed_run URL_parses env l q' t Hsome) as (j & Hj & Hq').
      apply lookup_lt_Some in Hj. rewrite length_fmap in Hj.
      assert (Hrange : 0 <= q' <= 9) by (revert Hq'; Z.div_mod_to_equations; lia).
      apply (one_digit_prefix_shard q q' t Hq Hrange) in Hpre as ->.
      apply url_key_starts_with_dotted.
  - now apply elem_of_elements, elem_of_dom.
Qed.

End OneDigit.

(** X15.  While fewer than 10000 submissions have been accepted and
    every write was carried out ([storable]), the listing that [handleGet]
    obtains for a shard [q] between 0 and 9 is exactly that shard: the keys
    returned by [list] under [url.<q>] are the stored keys under
    [url.<q>.], and the cap of 1000 cuts none off. *)
Theorem one_digit_shards_listed_exactly URL_parses env l q :
  storable URL_parses env l = true ->
  Z.of_nat (length (accepted_of URL_parses env l)) < 10000 -> 0 <= q <= 9 ->
  (forall k, k ∈ KV.list (list_prefix (Int q)) (run URL_parses env l)
             <-> k ∈ shard_entries q (run URL_parses env l))
  /\ (length (KV.list (list_prefix (Int q)) (run URL_parses env l)) <= 1000)%nat.
Proof.
  intros _ Hn Hq.
  set (s := run URL_parses env l).
  assert (Hsub : KV.matching (list_prefix (Int q)) s ⊆+ shard_entries q s).
  { apply NoDup_submseteq; [apply matching_NoDup |].
    intros k Hk. now apply matching_one_digit. }
  assert (Hlen : (length (KV.matching (list_prefix (Int q)) s) <= 1000)%nat).
  { apply submseteq_length in Hsub.
    pose proof (shard_entries_length URL_parses env l q). fold s in H. lia. }
  assert (Hlist : KV.list (list_prefix (Int q)) s = KV.matching (list_prefix (Int q)) s).
  { unfold KV.list. apply take_ge. exact Hlen. }
  rewrite Hlist. split; [| exact Hlen].
  intros k. split.
  - intros Hk. now apply matching_one_digit.
  - intros Hk. unfold shard_entries in Hk. apply list_elem_of_filter in Hk as [Hpre Hdom].
    apply elem_of_matching. split.
    + now apply elem_of_elements, elem_of_dom in Hdom.
    + eapply startsWith_shorter. exact Hpre.
Qed.

Lemma one_digit_shards_listed_exactly_witness :
  (length (KV.list (list_prefix (Int 0))
             (run parses open_env [mkSubmission 5 (post "https://example.com/")]))
   <= 1000)%nat.
Proof.
  assert (Hn : Z.of_nat (length (accepted_of parses open_env
                                    [mkSubmission 5 (post "https://example.com/")])) < 10000)
    by reflexivity.
  assert (Hq : 0 <= 0 <= 9) by lia.
  pose proof (one_digit_shards_listed_exactly parses open_env
                [mkSubmission 5 (post "https://example.com/")] 0 eq_refl Hn Hq) as [_ H].
  exact H.
Defined.

(** ** Which entries are stored *)

Section Stored.

Variable URL_parses : string -> bool.
Variable env : Env.

Lemma run_nothing_accepted l :
  accepted_of URL_parses env l = [] -> run URL_parses env l = ∅.
Proof.
  induction l as [| x l IH] using rev_ind; [reflexivity |].
  rewrite accepted_of_snoc, run_snoc. intros H. apply app_eq_nil in H as [Hl Hx].
  destruct (accepted URL_parses env (request x)) eqn:Hacc; [discriminate |].
  rewrite submit_rejected by assumption. now apply IH.
Qed.

Lemma entry_of_accepted l : forall j t,
  (at_time <$> accepted_of URL_parses env l) !! j = Some t ->
  is_Some (run URL_parses env l !! url_key (Int (Z.of_nat j / 1000)) (Int t)).
Proof.
  induction l as [| x l IH] using rev_ind; intros j t Hj; [discriminate |].
  rewrite run_snoc. rewrite accepted_of_snoc, fmap_app in Hj.
  destruct (accepted URL_parses env (request x)) eqn:Hacc.
  - destruct (Nat.lt_ge_cases j (length (at_time <$> accepted_of URL_parses env l)))
      as [Hlt | Hge].
    + rewrite lookup_app_l in Hj by assumption. apply submit_keeps. now apply IH.
    + rewrite lookup_app_r in Hj by assumption. cbn [fmap list_fmap] in Hj.
      apply list_lookup_singleton_Some in Hj as [Hz <-].
      assert (Hjn : j = length (accepted_of URL_parses env l))
        by (rewrite length_fmap in Hge, Hz; lia).
      subst j.
      pose proof (load_run URL_parses env l) as Hl. rewrite load_lookup in Hl.
      injection Hl as _ Hp.
      pose proof (entry_filed URL_parses env (run URL_parses env l) x Hacc) as Hf.
      unfold entry_key in Hf. rewrite Hp in Hf. rewrite Hf. eauto.
  - rewrite submit_rejected by assumption. cbn [fmap list_fmap] in Hj.
    rewrite app_nil_r in Hj. now apply IH.
Qed.

End Stored.

(** X17.  Where the entries are: after a sequence of submissions served
    from an empty namespace whose every write was carried out
    ([storable]), a key [url.<q>.<t>] is stored exactly when [t] is the
    clock reading of the [j]-th accepted submission (counting from 0) for
    some [j] with [floor(j / 1000) = q]. *)
Theorem stored_entries URL_parses env l q t :
  storable URL_parses env l = true ->
  is_Some (run URL_parses env l !! url_key (Int q) (Int t))
  <-> exists j : nat, (at_time <$> accepted_of URL_parses env l) !! j = Some t
                      /\ Z.of_nat j / 1000 = q.
Proof.
  intros _. split.
  - apply entries_indexed_run.
  - intros (j & Hj & <-). now apply entry_of_accepted.
Qed.

Lemma stored_entries_witness :
  is_Some (run parses open_env [mkSubmission 5 (post "https://example.com/");
                                mkSubmission 6 (post "ftp://example.com");
                                mkSubmission 7 (post "https://example.org/")]
             !! url_key (Int 0) (Int 7)).
Proof.
  apply (stored_entries parses open_env
           [mkSubmission 5 (post "https://example.com/");
            mkSubmission 6 (post "ftp://example.com");
            mkSubmission 7 (post "https://example.org/")] 0 7 eq_refl).
  exists 1%nat. split; reflexivity.
Defined.

(** X18.  Until a submission has been accepted there is nothing to
    sample: after a sequence of submissions that were all rejected, the
    namespace is still empty and every GET of a URL that does not end in
    [/stats] throws a [TypeError], whatever the draws. *)
Theorem get_throws_before_first_accept URL_parses env l req w :
  kv w = run URL_parses env l ->
  accepted_of URL_parses env l = [] ->
  endsWith (url req) "/stats" = false ->
  kv w = ∅ /\ fst (handleGet env req w) = Throw TypeError.
Proof.
  intros Hkv Hnone Hstats.
  rewrite (run_nothing_accepted URL_parses env l Hnone) in Hkv.
  split; [assumption |].
  rewrite handleGet_sampling by assumption. rewrite Hkv.
  assert (Hlist : forall prefix, KV.list prefix (∅ : gmap string string) = []).
  { intros prefix. destruct (KV.list prefix ∅) as [| k ks] eqn:E; [reflexivity |].
    assert (Hin : k ∈ KV.list prefix (∅ : gmap string string))
      by (rewrite E; apply list_elem_of_here).
    unfold KV.list in Hin. apply subseteq_take, elem_of_matching in Hin as [[v Hv] _].
    now rewrite lookup_empty in Hv. }
  rewrite Hlist. cbn [length floor_mul name_at].
  destruct (Qfloor _ <? 0); [reflexivity |]. now rewrite lookup_nil.
Qed.

Lemma get_throws_before_first_accept_witness :
  fst (handleGet locked_env (get "https://roulette.example/")
         (world (run parses locked_env [mkSubmission 5 (post "https://example.com/")]) 9))
  = Throw TypeError.
Proof.
  pose proof (get_throws_before_first_accept parses locked_env
                [mkSubmission 5 (post "https://example.com/")]
                (get "https://roulette.example/")
                (world (run parses locked_env [mkSubmission 5 (post "https://example.com/")]) 9)
                eq_refl eq_refl eq_refl) as [_ H].
  exact H.
Defined.

(** X19.  With a positive bound [rand] does what its comment says: for a
    bound [max] between 1 and 2^53 and a value of [Math.random()] in the
    unit interval it returns an integer [z] with [0 <= z < max], uses one
    draw and leaves the rest of the world alone. *)
Theorem rand_below_bound w max :
  0 < max <= 2 ^ 53 ->
  (0 <= random w (drawn w))%Q -> (random w (drawn w) < 1)%Q ->
  exists z,
    rand (Int max) w = (Normal (Int z), mkWorld (kv w) (now w) (random w) (S (drawn w)))
    /\ 0 <= z < max.
Proof.
  intros [Hmax _] H0 H1.
  exists (Qfloor (random w (drawn w) * inject_Z max)). split; [reflexivity |].
  now apply (floor_mul_range _ max H0 H1).
Qed.

Lemma rand_below_bound_witness :
  exists z, fst (rand (Int 10) (world ∅ 0)) = Normal (Int z) /\ 0 <= z < 10.
Proof.
  assert (Hmax : 0 < 10 <= 2 ^ 53) by (split; [reflexivity | vm_compute; discriminate]).
  destruct (rand_below_bound (world ∅ 0) 10 Hmax (proj1 half_in_unit) (proj2 half_in_unit))
    as (z & Hz & Hrange).
  exists z. split; [now rewrite Hz | exact Hrange].
Defined.
